(** * Netlist-compare: a shallow embedding of [compare.py]

    The program parses two KiCad netlist files, compares the node lists of
    every net and renders an HTML report.  This file embeds the four
    functions of [compare.py] ([parse_netlist], [categorize_nodes],
    [generate_html_report], [compare_netlists]) and the entry point, and
    proves the properties of the specification about them.

    Modelling conventions.
    - A Python [str] is a Rocq [string]; a character is its code point, and
      texts are taken with code points below 256.  String comparison is
      lexicographic on code points ([String.ltb]).
    - A Python [dict] with string keys is a [gmap string _]; the [set] of
      net names is a [gset string].  The order in which Python iterates
      over a set is not specified: it is a parameter of the development.
    - [open]/[readlines] are modelled by a file system that answers with
      the decoded text of a file, its line ends already translated to
      newlines as text mode does, or with the exception that is raised.
      Opening the report for writing and writing it are modelled by a
      second answer of the environment: the exception raised, if any.
    - [print] appends a line to the standard output, carried as a list of
      lines; writing the report produces the content written. *)

From Stdlib Require Import Ascii DecimalString Decimal.
From stdpp Require Import gmap strings list sorting.

(** ** Characters and string constants *)

Definition dquote : ascii := "034"%char.
Definition newline : ascii := "010"%char.

Definition Q : string := String dquote EmptyString.
Definition NL : string := String newline EmptyString.

(** the literal that opens the net pattern, up to the quote of the code *)
Definition NET_OPEN : string := Eval cbv in ("(net (code " +:+ Q).
(** the literal between the code and the name of the net pattern *)
Definition NET_MID : string := Eval cbv in (Q +:+ ") (name " +:+ Q).
(** the quote and parenthesis that close a group of a pattern *)
Definition GROUP_CLOSE : string := Eval cbv in (Q +:+ ")").
(** the literal that opens the node pattern, up to the quote of the ref *)
Definition NODE_OPEN : string := Eval cbv in ("(node (ref " +:+ Q).
(** the literal between the ref and the pin of the node pattern *)
Definition NODE_MID : string := Eval cbv in (Q +:+ ") (pin " +:+ Q).
(** the tail of the formatted node string: a quote and two parentheses *)
Definition NODE_CLOSE : string := Eval cbv in (Q +:+ "))").
(** the literal that opens the ref pattern of [categorize_nodes] *)
Definition REF_OPEN : string := Eval cbv in ("(ref " +:+ Q).

(** [str.isspace] on code points below 256. *)
Definition is_space (c : ascii) : bool :=
  match c with
  | "009" | "010" | "011" | "012" | "013"
  | "028" | "029" | "030" | "031" | " "
  | "133" | "160" => true
  | _ => false
  end%char.

(** [\d] on code points below 256. *)
Definition is_digit (c : ascii) : bool :=
  match c with
  | "0" | "1" | "2" | "3" | "4" | "5" | "6" | "7" | "8" | "9" => true
  | _ => false
  end%char.

Definition is_empty (s : string) : bool :=
  match s with EmptyString => true | String _ _ => false end.

(** ** String primitives *)

Fixpoint lstrip (s : string) : string :=
  match s with
  | String c s' => if is_space c then lstrip s' else s
  | EmptyString => EmptyString
  end.

Fixpoint rstrip (s : string) : string :=
  match s with
  | String c s' =>
      let r := rstrip s' in
      if is_space c && is_empty r then EmptyString else String c r
  | EmptyString => EmptyString
  end.

(** [s.strip()] *)
Definition strip (s : string) : string := rstrip (lstrip s).

(** [remove_prefix p s] is the rest of [s] after the literal [p], when [s]
    starts with [p]. *)
Fixpoint remove_prefix (p s : string) : option string :=
  match p with
  | EmptyString => Some s
  | String a p' =>
      match s with
      | String b s' => if Ascii.eqb a b then remove_prefix p' s' else None
      | EmptyString => None
      end
  end.

(** [s.startswith(p)] *)
Definition startswith (s p : string) : bool :=
  match remove_prefix p s with Some _ => true | None => false end.

(** [f.readlines()]: the text cut after every newline, the newline kept. *)
Fixpoint readlines_go (cur : string) (s : string) : list string :=
  match s with
  | EmptyString => if is_empty cur then [] else [String.rev cur]
  | String c s' =>
      if Ascii.eqb c newline
      then String.rev (String c cur) :: readlines_go EmptyString s'
      else readlines_go (String c cur) s'
  end.

Definition readlines (content : string) : list string :=
  readlines_go EmptyString content.

(** ** The regular expressions of the program

    A pattern is matched in continuation-passing style: a matcher takes
    the matcher of the rest of the pattern and the text still to read, and
    backtracks as Python's [re] does. *)

Section Regex.
Context {B : Type}.

(** a literal *)
Definition lit (p : string) (k : string -> option B) (s : string) : option B :=
  match remove_prefix p s with
  | Some rest => k rest
  | None => None
  end.

(** the lazy group [(.*?)]: as few characters as the rest of the pattern
    allows; [.] matches everything but a newline. *)
Fixpoint lazy_group (k : string -> option B) (s : string) : option (string * B) :=
  match k s with
  | Some b => Some (EmptyString, b)
  | None =>
      match s with
      | String c s' =>
          if Ascii.eqb c newline then None
          else match lazy_group k s' with
               | Some (g, b) => Some (String c g, b)
               | None => None
               end
      | EmptyString => None
      end
  end.

(** the greedy [\d*], giving digits back one at a time *)
Fixpoint digits_star (k : string -> option B) (s : string) : option (string * B) :=
  let stop := match k s with Some b => Some (EmptyString, b) | None => None end in
  match s with
  | String c s' =>
      if is_digit c then
        match digits_star k s' with
        | Some (g, b) => Some (String c g, b)
        | None => stop
        end
      else stop
  | EmptyString => stop
  end.

(** the greedy group [(\d+)] *)
Definition digits_group (k : string -> option B) (s : string) : option (string * B) :=
  match s with
  | String c s' =>
      if is_digit c then
        match digits_star k s' with
        | Some (g, b) => Some (String c g, b)
        | None => None
        end
      else None
  | EmptyString => None
  end.

(** [re.search]: the leftmost position at which the pattern matches *)
Fixpoint re_search (m : string -> option B) (s : string) : option B :=
  match m s with
  | Some b => Some b
  | None =>
      match s with
      | String _ s' => re_search m s'
      | EmptyString => None
      end
  end.
End Regex.

(** the end of a pattern: the match succeeds whatever follows *)
Definition accept (_ : string) : option unit := Some tt.

(** [re.match] of the net pattern of line 28 on [line]: the opening
    literal, the group [(\d+)], the middle literal, the group [(.*?)], the
    closing literal; gives [(group(1), group(2))]. *)
Definition net_re (line : string) : option (string * string) :=
  match lit NET_OPEN (digits_group (lit NET_MID (lazy_group (lit GROUP_CLOSE accept)))) line with
  | Some (code, (name, _)) => Some (code, name)
  | None => None
  end.

(** [re.match] of the node pattern of line 39 on [line]: the opening
    literal, a group [(.*?)], the middle literal, a group [(.*?)], the
    closing literal; gives [(group(1), group(2))]. *)
Definition node_re (line : string) : option (string * string) :=
  match lit NODE_OPEN (lazy_group (lit NODE_MID (lazy_group (lit GROUP_CLOSE accept)))) line with
  | Some (ref, (pin, _)) => Some (ref, pin)
  | None => None
  end.

(** [re.search] of the ref pattern of line 58 in [node]: the opening
    literal, the group [(.*?)], the closing literal; gives [group(1)]. *)
Definition ref_re (node : string) : option string :=
  match re_search (lit REF_OPEN (lazy_group (lit GROUP_CLOSE accept))) node with
  | Some (ref, _) => Some ref
  | None => None
  end.

(** the f-string of line 43, the canonical text of a node *)
Definition format_node (ref pin : string) : string :=
  NODE_OPEN +:+ ref +:+ NODE_MID +:+ pin +:+ NODE_CLOSE.

(** ** parse_netlist *)

(** the value [{'code': net_code, 'nodes': [...]}] of [connections] *)
Record net_entry : Type := NetEntry { code : string; nodes : list string }.

Global Instance net_entry_eq_dec : EqDecision net_entry.
Proof. solve_decision. Defined.

(** The exceptions the function can meet.  [OtherError msg] stands for
    every exception other than [FileNotFoundError] that [open] or
    [readlines] raises, [msg] being its [str]. *)
Inductive exn : Type :=
  | FileNotFoundError
  | KeyError (key : string)
  | OtherError (msg : string).

(** [str(e)], printed by the second handler; for a [KeyError] it is the
    [repr] of the key. *)
Definition str_exn (e : exn) : string :=
  match e with
  | FileNotFoundError => "[Errno 2] No such file or directory"
  | KeyError key => "'" +:+ key +:+ "'"
  | OtherError msg => msg
  end.

(** What [open(path, 'r')] followed by [readlines()] meets. *)
Inductive read_outcome : Type :=
  | ReadOk (content : string)
  | ReadMissing
  | ReadFails (msg : string).

Definition file_system : Type := string -> read_outcome.

(** The dictionaries and the local variables of the loop. *)
Record pstate : Type := PState {
  connections : gmap string net_entry;
  net_codes : gmap string string;
  net_name : option string;
  net_code : option string;
  in_nets_section : bool
}.

Definition init_pstate : pstate := PState ∅ ∅ None None false.

Definition set_in_nets (b : bool) (st : pstate) : pstate :=
  PState (connections st) (net_codes st) (net_name st) (net_code st) b.

(** lines 30-33: a net declaration registers the net in both maps *)
Definition declare_net (c n : string) (st : pstate) : pstate :=
  PState (<[n := NetEntry c []]> (connections st))
         (<[n := c]> (net_codes st))
         (Some n) (Some c) (in_nets_section st).

(** line 43: [connections[net_name]['nodes'].append(...)] *)
Definition append_node (n node : string) (st : pstate) : exn + pstate :=
  match connections st !! n with
  | Some e =>
      inr (PState (<[n := NetEntry (code e) (nodes e ++ [node])]> (connections st))
                  (net_codes st) (net_name st) (net_code st) (in_nets_section st))
  | None => inl (KeyError n)
  end.

(** One turn of the loop of lines 17-43. *)
Definition parse_line (st : pstate) (raw : string) : exn + pstate :=
  let line := strip raw in
  if startswith line "(nets" then inr (set_in_nets true st)
  else if startswith line "(components" then inr (set_in_nets false st)
  else
    match (if in_nets_section st && startswith line "(net"
           then net_re line else None) with
    | Some (c, n) => inr (declare_net c n st)
    | None =>
        if in_nets_section st && startswith line "(node" then
          match net_name st with
          | Some n =>
              if is_empty n then inr st
              else match node_re line with
                   | Some (ref, pin) => append_node n (format_node ref pin) st
                   | None => inr st
                   end
          | None => inr st
          end
        else inr st
    end.

(** The loop; an exception leaves the dictionaries as they are then. *)
Fixpoint parse_lines (st : pstate) (lines : list string) : pstate * option exn :=
  match lines with
  | [] => (st, None)
  | raw :: rest =>
      match parse_line st raw with
      | inr st' => parse_lines st' rest
      | inl e => (st, Some e)
      end
  end.

(** The [try] block, then the two handlers, then the [return]. *)
Definition parse_netlist (fs : file_system) (file_path : string)
  : (gmap string net_entry * gmap string string) * list string :=
  let '(st, raised) :=
    match fs file_path with
    | ReadOk content => parse_lines init_pstate (readlines content)
    | ReadMissing => (init_pstate, Some FileNotFoundError)
    | ReadFails msg => (init_pstate, Some (OtherError msg))
    end in
  let out :=
    match raised with
    | None => []
    | Some FileNotFoundError => ["Error: File " +:+ file_path +:+ " not found."]
    | Some e => ["Error: An unexpected error occurred while parsing "
                   +:+ file_path +:+ " - " +:+ str_exn e]
    end in
  ((connections st, net_codes st), out).


(** ** categorize_nodes *)

(** the dictionary [{'Capacitors': _, 'Resistors': _, 'Others': _}] *)
Record categories : Type := Categories {
  Capacitors : nat;
  Resistors : nat;
  Others : nat
}.

Inductive category : Type := Capacitor | Resistor | Other.

(** lines 61-66: the category a reference designator falls in *)
Definition category_of_ref (ref : string) : category :=
  if startswith ref "C" then Capacitor
  else if startswith ref "R" then Resistor
  else Other.

(** [categories[...] += 1] *)
Definition count_in (k : category) (cats : categories) : categories :=
  match k with
  | Capacitor => Categories (S (Capacitors cats)) (Resistors cats) (Others cats)
  | Resistor => Categories (Capacitors cats) (S (Resistors cats)) (Others cats)
  | Other => Categories (Capacitors cats) (Resistors cats) (S (Others cats))
  end.

(** one turn of the loop of lines 57-66 *)
Definition categorize_node (cats : categories) (node : string) : categories :=
  match ref_re node with
  | Some ref => count_in (category_of_ref ref) cats
  | None => cats
  end.

Definition categorize_nodes (nodes : list string) : categories :=
  foldl categorize_node (Categories 0 0 0) nodes.

(** ** compare_netlists: the comparison *)

(** the tuple appended to [results] at line 171 *)
Record result : Type := Result {
  r_net_name : string;
  r_net_code1 : string;
  r_count1 : nat;
  r_net_code2 : string;
  r_count2 : nat;
  r_is_mismatch : bool
}.

(** the tuple appended to [detailed_mismatches] at line 174 *)
Record detail : Type := Detail {
  d_net_name : string;
  d_unique_nodes1 : list string;
  d_count1 : nat;
  d_unique_nodes2 : list string;
  d_count2 : nat
}.

(** the four accumulators of lines 150-153 *)
Record cmp_state : Type := CmpState {
  results : list result;
  detailed_mismatches : list detail;
  matched_count : nat;
  mismatched_count : nat
}.

(** [net_codes.get(net_name, 'N/A')] *)
Definition get_code (codes : gmap string string) (net_name : string) : string :=
  default "N/A" (codes !! net_name).

(** [netlist.get(net_name, {'nodes': []})['nodes']] *)
Definition get_nodes (netlist : gmap string net_entry) (net_name : string) : list string :=
  match netlist !! net_name with
  | Some e => nodes e
  | None => []
  end.

(** [[node for node in mine if node not in theirs]] *)
Definition unique_nodes (mine theirs : list string) : list string :=
  filter (fun node => node ∉ theirs) mine.

(** [count_unique1 != count_unique2] *)
Definition count_mismatch (nodes1 nodes2 : list string) : bool :=
  negb (Nat.eqb (length (unique_nodes nodes1 nodes2))
                 (length (unique_nodes nodes2 nodes1))).

Section Compare.
Variables netlist1 netlist2 : gmap string net_entry.
Variables net_codes1 net_codes2 : gmap string string.

(** the tuple of line 171 for one net *)
Definition result_of (net_name : string) : result :=
  let nodes1 := get_nodes netlist1 net_name in
  let nodes2 := get_nodes netlist2 net_name in
  Result net_name (get_code net_codes1 net_name) (length nodes1)
         (get_code net_codes2 net_name) (length nodes2)
         (count_mismatch nodes1 nodes2).

(** the tuple of line 174 for one net *)
Definition detail_of (net_name : string) : detail :=
  let unique_nodes1 := unique_nodes (get_nodes netlist1 net_name) (get_nodes netlist2 net_name) in
  let unique_nodes2 := unique_nodes (get_nodes netlist2 net_name) (get_nodes netlist1 net_name) in
  Detail net_name unique_nodes1 (length unique_nodes1)
         unique_nodes2 (length unique_nodes2).

(** one turn of the loop of lines 155-177 *)
Definition compare_net (acc : cmp_state) (net_name : string) : cmp_state :=
  let r := result_of net_name in
  if r_is_mismatch r then
    CmpState (results acc ++ [r])
             (detailed_mismatches acc ++ [detail_of net_name])
             (matched_count acc) (S (mismatched_count acc))
  else
    CmpState (results acc ++ [r]) (detailed_mismatches acc)
             (S (matched_count acc)) (mismatched_count acc).

(** the loop, over the net names in the order the set gives them *)
Definition compare_loop (order : list string) : cmp_state :=
  foldl compare_net (CmpState [] [] 0 0) order.
End Compare.

(** ** The sort of line 180 *)

(** [(not x[5], x[1])] *)
Definition sort_key (x : result) : bool * string :=
  (negb (r_is_mismatch x), r_net_code1 x).

(** [<] on the key tuples: the first components that differ decide, and
    [False < True]. *)
Definition key_lt (k1 k2 : bool * string) : bool :=
  if Bool.eqb k1.1 k2.1 then String.ltb k1.2 k2.2
  else negb k1.1 && k2.1.

(** [list.sort(key=...)] is a stable sort that compares keys with [<]; a
    list has one stable sorting, computed here by insertion: an element
    goes before the first element of the sorted rest whose key is not
    smaller than its own. *)
Fixpoint sort_insert (x : result) (l : list result) : list result :=
  match l with
  | [] => [x]
  | y :: l' =>
      if key_lt (sort_key y) (sort_key x) then y :: sort_insert x l'
      else x :: y :: l'
  end.

Fixpoint py_sort (l : list result) : list result :=
  match l with
  | [] => []
  | x :: l' => sort_insert x (py_sort l')
  end.

(** ** generate_html_report *)

(** [str(n)] for a non-negative integer *)
Definition str_nat (n : nat) : string := NilEmpty.string_of_uint (Nat.to_uint n).

(** [sep.join(l)] *)
Fixpoint str_join (sep : string) (l : list string) : string :=
  match l with
  | [] => EmptyString
  | [x] => x
  | x :: l' => x +:+ sep +:+ str_join sep l'
  end.

(** a line of a triple-quoted f-string: its indentation, its text and the
    newline that ends it *)
Definition html_line (indent : nat) (text : string) : string :=
  String.string_of_list_ascii (replicate indent " "%char) +:+ text +:+ NL.

Definition indent_only (indent : nat) : string :=
  String.string_of_list_ascii (replicate indent " "%char).

(** lines 79-88 *)
Definition html_row (i : nat) (x : result) : string :=
  let row_class := if r_is_mismatch x then "mismatch-row" else "match-row" in
  NL
  +:+ html_line 12 ("<tr class=" +:+ Q +:+ row_class +:+ Q +:+ ">")
  +:+ html_line 16 ("<td>" +:+ str_nat i +:+ "</td>")
  +:+ html_line 16 ("<td>" +:+ r_net_name x +:+ "</td>")
  +:+ html_line 16 ("<td>" +:+ r_net_code1 x +:+ "</td>")
  +:+ html_line 16 ("<td>" +:+ str_nat (r_count1 x) +:+ "</td>")
  +:+ html_line 16 ("<td>" +:+ r_net_code2 x +:+ "</td>")
  +:+ html_line 16 ("<td>" +:+ str_nat (r_count2 x) +:+ "</td>")
  +:+ html_line 12 "</tr>"
  +:+ indent_only 8.

(** the loop of lines 76-88, [i] being the number [enumerate] gives to the
    first element *)
Fixpoint html_rows (i : nat) (l : list result) : string :=
  match l with
  | [] => EmptyString
  | x :: l' => html_row i x +:+ html_rows (S i) l'
  end.

(** lines 103-111 and 112-120: the cell of one side *)
Definition html_side (count : nat) (unique : list string) : string :=
  let cats := categorize_nodes unique in
  html_line 16 "<td>"
  +:+ html_line 20 ("<p>Total Nodes: " +:+ str_nat count +:+ "</p>")
  +:+ html_line 20 ("<p>Total Capacitors: " +:+ str_nat (Capacitors cats) +:+ "</p>")
  +:+ html_line 20 ("<p>Total Resistors: " +:+ str_nat (Resistors cats) +:+ "</p>")
  +:+ html_line 20 ("<p>Total Others: " +:+ str_nat (Others cats) +:+ "</p>")
  +:+ html_line 20 "<ul>"
  +:+ html_line 24 (str_join EmptyString
                      ((fun node => "<li>" +:+ node +:+ "</li>") <$> unique))
  +:+ html_line 20 "</ul>"
  +:+ html_line 16 "</td>".

(** lines 99-122; [nodes1_str] and [nodes2_str] of lines 96-97 are
    computed and not used *)
Definition html_detailed_row (i : nat) (d : detail) : string :=
  NL
  +:+ html_line 12 "<tr>"
  +:+ html_line 16 ("<td>" +:+ str_nat i +:+ "</td>")
  +:+ html_line 16 ("<td>" +:+ d_net_name d +:+ "</td>")
  +:+ html_side (d_count1 d) (d_unique_nodes1 d)
  +:+ html_side (d_count2 d) (d_unique_nodes2 d)
  +:+ html_line 12 "</tr>"
  +:+ indent_only 8.

(** the loop of lines 90-122 *)
Fixpoint html_detailed_rows (i : nat) (l : list detail) : string :=
  match l with
  | [] => EmptyString
  | d :: l' => html_detailed_row i d +:+ html_detailed_rows (S i) l'
  end.

(** lines 125-132 *)
Definition html_footer (matched mismatched : nat) : string :=
  NL
  +:+ html_line 8 "<tr>"
  +:+ html_line 12 ("<td colspan=" +:+ Q +:+ "6" +:+ Q +:+ ">")
  +:+ html_line 16 ("<p><strong>Matched Net Codes: " +:+ str_nat matched +:+ "</strong></p>")
  +:+ html_line 16 ("<p><strong>Mismatched Net Codes: " +:+ str_nat mismatched +:+ "</strong></p>")
  +:+ html_line 12 "</td>"
  +:+ html_line 8 "</tr>"
  +:+ indent_only 4.

(** [s.replace(old, new)] for a non-empty [old]: the occurrences of [old]
    are replaced from left to right, the search going on after each
    occurrence; [skip] counts the characters of an occurrence still to
    pass over. *)
Fixpoint replace_go (old new : string) (skip : nat) (s : string) : string :=
  match s with
  | EmptyString => EmptyString
  | String c s' =>
      match skip with
      | S k => replace_go old new k s'
      | O =>
          if startswith s old
          then new +:+ replace_go old new (String.length old - 1) s'
          else String c (replace_go old new 0 s')
      end
  end.

(** [s.replace(old, new)] for an empty [old]: [new] before every character
    and at the end *)
Fixpoint replace_empty (new : string) (s : string) : string :=
  match s with
  | EmptyString => new
  | String c s' => new +:+ String c (replace_empty new s')
  end.

Definition replace (old new s : string) : string :=
  if is_empty old then replace_empty new s else replace_go old new 0 s.

Definition ROWS : string := "{{ rows }}".
Definition DETAILED_ROWS : string := "{{ detailed_rows }}".
Definition FOOTER_INFO : string := "{{ footer_info }}".

(** line 134 *)
Definition fill_template (template rows detailed_rows footer_info : string) : string :=
  replace FOOTER_INFO footer_info
    (replace DETAILED_ROWS detailed_rows
       (replace ROWS rows template)).

(** What the function leaves behind: the content written to
    [comparison_report.html] and the line printed. *)
Record report : Type := Report {
  html_content : string;
  printed : string
}.

(** What [open(path, 'w')] followed by [write] meets: the exception
    raised, if any. *)
Definition write_system : Type := string -> option exn.

(** The template is read and the report is written without a handler: a
    failure of either leaves the function as an exception.  A write that
    raises leaves no report (the file may be left empty) and the
    confirmation is not printed. *)
Definition generate_html_report (fs : file_system) (ws : write_system)
    (results : list result) (detailed_mismatches : list detail)
    (matched_count mismatched_count : nat) : exn + report :=
  match fs "template.html" with
  | ReadMissing => inl FileNotFoundError
  | ReadFails msg => inl (OtherError msg)
  | ReadOk template =>
      let rows := html_rows 1 results in
      let detailed_rows := html_detailed_rows 1 detailed_mismatches in
      let footer_info := html_footer matched_count mismatched_count in
      let html_content := fill_template template rows detailed_rows footer_info in
      match ws "comparison_report.html" with
      | Some e => inl e
      | None =>
          inr (Report html_content
                      "HTML report generated as 'comparison_report.html'")
      end
  end.

(** ** compare_netlists and the entry point *)

(** How a run ends. *)
Inductive termination : Type :=
  | Exit (status : nat)
  | Uncaught (e : exn).

(** What a run does: the lines printed, the files opened for reading in
    order, the report written if any, and how the run ends. *)
Record outcome : Type := Outcome {
  stdout : list string;
  opened : list string;
  report_written : option string;
  ending : termination
}.

Section Run.
(** the order in which Python iterates over a set of net names *)
Variable set_order : gset string -> list string.
Variable fs : file_system.
Variable ws : write_system.

(** lines 147-180 on the two parsed netlists: the accumulators after the
    loop and the sort *)
Definition compare_core
    (p1 p2 : gmap string net_entry * gmap string string) : cmp_state :=
  let '(netlist1, net_codes1) := p1 in
  let '(netlist2, net_codes2) := p2 in
  let all_nets := dom netlist1 ∪ dom netlist2 in
  let acc := compare_loop netlist1 netlist2 net_codes1 net_codes2
               (set_order all_nets) in
  CmpState (py_sort (results acc)) (detailed_mismatches acc)
           (matched_count acc) (mismatched_count acc).

Definition compare_netlists (file1 file2 : string) : outcome :=
  let '(p1, out1) := parse_netlist fs file1 in
  let '(p2, out2) := parse_netlist fs file2 in
  let acc := compare_core p1 p2 in
  match generate_html_report fs ws (results acc) (detailed_mismatches acc)
          (matched_count acc) (mismatched_count acc) with
  | inr rep =>
      Outcome (out1 ++ out2 ++ [printed rep])
              [file1; file2; "template.html"]
              (Some (html_content rep)) (Exit 0)
  | inl e =>
      Outcome (out1 ++ out2) [file1; file2; "template.html"] None (Uncaught e)
  end.

(** lines 184-192, [argv] being [sys.argv] *)
Definition main (argv : list string) : outcome :=
  match argv with
  | [_; file1; file2] => compare_netlists file1 file2
  | _ => Outcome ["Usage: python compare.py <file1.net> <file2.net>"] [] None (Exit 1)
  end.
End Run.

(** ** Predicates and sample inputs used by the theorems *)

(** What the loop of [parse_netlist] keeps true: the current net, when
    there is one, is a key of [connections], and [net_codes] tells the code
    of every entry of [connections] and nothing else. *)
Definition pinv (st : pstate) : Prop :=
  (forall n, net_name st = Some n -> is_Some (connections st !! n))
  /\ (forall n, net_codes st !! n = code <$> (connections st !! n)).

(** Two states of the loop that the rest of the file cannot tell apart as
    far as the entry of [n] goes. *)
Definition agree_on (n : string) (st st' : pstate) : Prop :=
  in_nets_section st = in_nets_section st'
  /\ net_name st = net_name st'
  /\ connections st !! n = connections st' !! n
  /\ (forall m, net_name st = Some m -> connections st !! m = connections st' !! m).

(** a net declaration line and a node line as KiCad writes them *)
Definition net_line (c n : string) : string :=
  "    " +:+ NET_OPEN +:+ c +:+ NET_MID +:+ n +:+ GROUP_CLOSE.

Definition node_line (ref pin : string) : string :=
  "      " +:+ format_node ref pin.

(** the text of a file, from its lines *)
Fixpoint text_of (lines : list string) : string :=
  match lines with
  | [] => EmptyString
  | l :: rest => l +:+ NL +:+ text_of rest
  end.

(** GND with C1 and R1, VCC with U1 *)
Definition netlist_a : string :=
  text_of ["(export (version D)"; "  (components"; "  (nets";
           net_line "1" "GND"; node_line "C1" "1"; node_line "R1" "2";
           net_line "2" "VCC"; node_line "U1" "8"; "  ))"].

(** GND with C1, R1 and C2, VCC with D2, SIG with R7 *)
Definition netlist_b : string :=
  text_of ["(export (version D)"; "  (components"; "  (nets";
           net_line "1" "GND"; node_line "C1" "1"; node_line "R1" "2";
           node_line "C2" "1";
           net_line "2" "VCC"; node_line "D2" "1";
           net_line "3" "SIG"; node_line "R7" "1"; "  ))"].

(** GND declared twice *)
Definition netlist_dup_pre : list string :=
  ["  (nets" +:+ NL; net_line "1" "GND" +:+ NL; node_line "C1" "1" +:+ NL].

Definition netlist_dup_nodes : list string :=
  [node_line "R1" "2" +:+ NL; node_line "C2" "1" +:+ NL].

Definition netlist_dup : string :=
  text_of ["  (nets"; net_line "1" "GND"; node_line "C1" "1";
           net_line "7" "GND"; node_line "R1" "2"; node_line "C2" "1"].

(** a net with the empty name declared twice *)
Definition netlist_unnamed : string :=
  text_of ["  (nets"; net_line "1" EmptyString; node_line "R1" "1";
           net_line "2" EmptyString; node_line "R2" "1"].

Definition sample_fs (path : string) : read_outcome :=
  if String.eqb path "a.net" then ReadOk netlist_a
  else if String.eqb path "b.net" then ReadOk netlist_b
  else if String.eqb path "dup.net" then ReadOk netlist_dup
  else if String.eqb path "unnamed.net" then ReadOk netlist_unnamed
  else if String.eqb path "locked.net" then ReadFails "[Errno 13] Permission denied: 'locked.net'"
  else ReadMissing.

(** the order of the sort keys: [k1] is not after [k2] *)
Definition key_le (k1 k2 : bool * string) : bool := negb (key_lt k2 k1).

Definition result_le (x y : result) : Prop :=
  key_le (sort_key x) (sort_key y) = true.

(** non-decreasing order of the first file's net code *)
Definition code_le (x y : result) : Prop :=
  String.le (r_net_code1 x) (r_net_code1 y).


(** a net is flagged by the loop *)
Definition flagged (netlist1 netlist2 : gmap string net_entry) (net_name : string) : Prop :=
  count_mismatch (get_nodes netlist1 net_name) (get_nodes netlist2 net_name) = true.

Global Instance flagged_dec netlist1 netlist2 net_name :
  Decision (flagged netlist1 netlist2 net_name).
Proof. unfold flagged. apply _. Defined.

(** the two sample files, parsed *)
Definition parsed_a : gmap string net_entry * gmap string string :=
  (parse_netlist sample_fs "a.net").1.

Definition parsed_b : gmap string net_entry * gmap string string :=
  (parse_netlist sample_fs "b.net").1.

(** a text without a newline *)
Fixpoint no_newline (s : string) : bool :=
  match s with
  | EmptyString => true
  | String c s' => negb (Ascii.eqb c newline) && no_newline s'
  end.

(** every node stored in [connections] has a reference designator that
    [categorize_nodes] can extract *)
Definition nodes_have_ref (m : gmap string net_entry) : Prop :=
  forall n e, m !! n = Some e -> Forall (fun node => is_Some (ref_re node)) (nodes e).

(** a text in which no two opening braces follow each other *)
Fixpoint no_open (s : string) : bool :=
  match s with
  | String a s' =>
      match s' with
      | String b _ => negb (Ascii.eqb a "{" && Ascii.eqb b "{") && no_open s'
      | EmptyString => true
      end
  | EmptyString => true
  end.

(** a template with one occurrence of each placeholder, and one with the
    rows placeholder twice *)
Definition sample_template : string :=
  "<html><style>td { padding: 2px }</style><table>" +:+ ROWS
  +:+ "</table><table>" +:+ DETAILED_ROWS
  +:+ "</table><table>" +:+ FOOTER_INFO +:+ "</table></html>".

Definition template_fs (template : string) : file_system :=
  fun path => if String.eqb path "template.html" then ReadOk template
              else sample_fs path.

Definition sample_results : list result :=
  [Result "GND" "1" 2 "1" 3 true; Result "VCC" "2" 1 "2" 1 false].

Definition sample_details : list detail :=
  [Detail "GND" [] 0 [format_node "C2" "1"] 1].

(** a token that opens with two braces and a space, as the three
    placeholders do *)
Definition placeholder (tok : string) : Prop :=
  exists t, tok = String "{" (String "{" (String " " t)).

(** an environment in which the report can be written, and one in which
    it cannot *)
Definition writable : write_system := fun _ => None.

Definition read_only : write_system :=
  fun path =>
    if String.eqb path "comparison_report.html"
    then Some (OtherError "[Errno 13] Permission denied: 'comparison_report.html'")
    else None.

(** ** Further predicates and sample inputs *)

(** a text made of the digits of the code pattern *)
Fixpoint all_digits (s : string) : bool :=
  match s with
  | EmptyString => true
  | String c s' => is_digit c && all_digits s'
  end.

(** a text without a double quote *)
Fixpoint no_quote (s : string) : bool :=
  match s with
  | EmptyString => true
  | String c s' => negb (Ascii.eqb c dquote) && no_quote s'
  end.

(** a node string as line 43 writes it *)
Definition canonical_node (node : string) : Prop :=
  exists ref pin,
    node = format_node ref pin /\ no_newline ref = true /\ no_newline pin = true.

Definition nodes_canonical (m : gmap string net_entry) : Prop :=
  forall n e, m !! n = Some e -> Forall canonical_node (nodes e).

Definition codes_are_digits (m : gmap string string) : Prop :=
  forall n c, m !! n = Some c -> all_digits c = true /\ c <> EmptyString.

(** a line that opens the nets section *)
Definition opens_nets (raw : string) : bool := startswith (strip raw) "(nets".

(** a line that closes it *)
Definition opens_components (raw : string) : bool :=
  startswith (strip raw) "(components".

(** the three counters of a [categories] added up, and two of them added *)
Definition total_categorized (cats : categories) : nat :=
  Capacitors cats + Resistors cats + Others cats.

Definition add_categories (a b : categories) : categories :=
  Categories (Capacitors a + Capacitors b) (Resistors a + Resistors b)
             (Others a + Others b).

(** a row and a detailed entry with the two sides exchanged *)
Definition swap_result (x : result) : result :=
  Result (r_net_name x) (r_net_code2 x) (r_count2 x)
         (r_net_code1 x) (r_count1 x) (r_is_mismatch x).

Definition swap_detail (d : detail) : detail :=
  Detail (d_net_name d) (d_unique_nodes2 d) (d_count2 d)
         (d_unique_nodes1 d) (d_count1 d).

(** a file whose net declarations come before the nets section, and one
    with a declaration that the pattern refuses *)
Definition netlist_no_section : string :=
  text_of ["(export (version D)"; net_line "1" "GND"; node_line "C1" "1";
           "  (components"; node_line "R1" "2"].

Definition netlist_bad_code : list string :=
  ["  (nets"; net_line "1" "GND"; node_line "C1" "1";
   "    (net (code x) (name VCC)"; node_line "U1" "8"].

Definition more_fs (path : string) : read_outcome :=
  if String.eqb path "nosection.net" then ReadOk netlist_no_section
  else if String.eqb path "badcode.net" then ReadOk (text_of netlist_bad_code)
  else sample_fs path.

(** a line that is no section marker and on which neither pattern
    matches *)
Definition unrecognised (raw : string) : bool :=
  negb (opens_nets raw) && negb (opens_components raw)
  && bool_decide (net_re (strip raw) = None)
  && bool_decide (node_re (strip raw) = None).

(** two netlists whose net N has the same nodes, in another order and
    another number of times *)
Definition same_set_1 : gmap string net_entry :=
  {[ "N" := NetEntry "1" [format_node "R1" "1"; format_node "C1" "2";
                          format_node "R1" "1"] ]}.

Definition same_set_2 : gmap string net_entry :=
  {[ "N" := NetEntry "4" [format_node "C1" "2"; format_node "R1" "1"] ]}.

(** the net names that the lines declare inside the nets section, [inside]
    telling whether the first line is met inside it: only the section
    markers and the net declarations are looked at *)
Fixpoint declared_names (inside : bool) (lines : list string) : list string :=
  match lines with
  | [] => []
  | raw :: rest =>
      if opens_nets raw then declared_names true rest
      else if opens_components raw then declared_names false rest
      else match (if inside then net_re (strip raw) else None) with
           | Some (_, n) => n :: declared_names inside rest
           | None => declared_names inside rest
           end
  end.

(** [s] cut at the occurrences of [old] that a search from left to right
    finds, each search starting after the occurrence found before: the
    list of the pieces around these occurrences.  No occurrence of [old]
    starts inside a piece that an occurrence follows, and [old] occurs
    nowhere in the last piece. *)
Inductive leftmost_split (old : string) : string -> list string -> Prop :=
  | split_last (s : string) :
      (forall u v, s = u +:+ v -> startswith v old = false) ->
      leftmost_split old s [s]
  | split_cons (p rest : string) (ps : list string) :
      (forall u v, p = u +:+ v -> v <> EmptyString ->
         startswith (v +:+ old +:+ rest) old = false) ->
      leftmost_split old rest ps ->
      leftmost_split old (p +:+ old +:+ rest) (p :: ps).

(** [old] occurs somewhere in [s] *)
Fixpoint occurs_in (old s : string) : bool :=
  startswith s old
  || match s with
     | String _ s' => occurs_in old s'
     | EmptyString => false
     end.

(** an occurrence of [old] starts inside [p] in the text [p +:+ t] *)
Fixpoint starts_inside (old p t : string) : bool :=
  match p with
  | EmptyString => false
  | String _ p' => startswith (p +:+ t) old || starts_inside old p' t
  end.






(** a template with the rows placeholder twice, no placeholder for the
    detailed rows, and the footer placeholder once *)
Definition template_rows_twice : string :=
  ROWS +:+ "<hr>" +:+ ROWS +:+ FOOTER_INFO.

(** ** Facts about the string primitives and the patterns *)

Lemma remove_prefix_Some p s r :
  remove_prefix p s = Some r <-> s = p +:+ r.
Proof.
  revert s. induction p as [|a p IH]; intros s; simpl.
  - split; [by intros [= ->] | by intros ->].
  - destruct s as [|b s]; [split; [done | by intros [=]] |].
    destruct (Ascii.eqb a b) eqn:E.
    + apply Ascii.eqb_eq in E as ->. rewrite IH.
      split; [by intros -> | by intros [= ->]].
    + apply Ascii.eqb_neq in E. split; [done | intros [= ? ?]; congruence].
Qed.

Lemma remove_prefix_app p r : remove_prefix p (p +:+ r) = Some r.
Proof. by apply remove_prefix_Some. Qed.

Lemma net_re_shape line c n :
  net_re line = Some (c, n) ->
  startswith line "(nets" = false /\ startswith line "(components" = false
  /\ startswith line "(net" = true.
Proof.
  unfold net_re, lit. destruct (remove_prefix NET_OPEN line) as [r|] eqn:E; [|done].
  apply remove_prefix_Some in E as ->. intros _. by repeat split.
Qed.

Lemma node_re_shape line ref pin :
  node_re line = Some (ref, pin) ->
  startswith line "(nets" = false /\ startswith line "(components" = false
  /\ startswith line "(net" = false /\ startswith line "(node" = true.
Proof.
  unfold node_re, lit. destruct (remove_prefix NODE_OPEN line) as [r|] eqn:E; [|done].
  apply remove_prefix_Some in E as ->. intros _. by repeat split.
Qed.

(** ** Facts about the loop of [parse_netlist] *)

Lemma pinv_init b : pinv (set_in_nets b init_pstate).
Proof. split; [done | intros n; simpl; by rewrite !lookup_empty]. Qed.

Lemma pinv_set_in_nets b st : pinv st -> pinv (set_in_nets b st).
Proof. by intros [??]. Qed.

Lemma pinv_declare_net c n st : pinv st -> pinv (declare_net c n st).
Proof.
  intros [H1 H2]. split; simpl.
  - intros ? [= <-]. rewrite lookup_insert_eq. by eexists.
  - intros m. destruct (decide (n = m)) as [->|Hne].
    + by rewrite !lookup_insert_eq.
    + by rewrite !lookup_insert_ne.
Qed.

Lemma parse_line_ok st raw :
  pinv st -> exists st', parse_line st raw = inr st' /\ pinv st'.
Proof.
  intros Hinv. unfold parse_line.
  destruct (startswith (strip raw) "(nets"); [eauto using pinv_set_in_nets|].
  destruct (startswith (strip raw) "(components"); [eauto using pinv_set_in_nets|].
  destruct (if in_nets_section st && startswith (strip raw) "(net"
            then net_re (strip raw) else None) as [[c n]|];
    [eauto using pinv_declare_net|].
  destruct (in_nets_section st && startswith (strip raw) "(node"); [|eauto].
  destruct (net_name st) as [n|] eqn:Hn; [|eauto].
  destruct (is_empty n); [eauto|].
  destruct (node_re (strip raw)) as [[ref pin]|]; [|eauto].
  destruct Hinv as [H1 H2]. unfold append_node.
  destruct (H1 n Hn) as [e He]. rewrite He. eexists; split; [done|].
  split; simpl.
  - rewrite Hn. intros ? [= <-]. rewrite lookup_insert_eq. by eexists.
  - intros m. destruct (decide (n = m)) as [<-|Hne].
    + by rewrite lookup_insert_eq, H2, He.
    + by rewrite lookup_insert_ne, H2.
Qed.

Lemma parse_lines_ok st lines :
  pinv st ->
  (parse_lines st lines).2 = None /\ pinv (parse_lines st lines).1.
Proof.
  revert st. induction lines as [|raw rest IH]; intros st Hinv; simpl; [done|].
  destruct (parse_line_ok st raw Hinv) as (st' & -> & Hinv'). by apply IH.
Qed.

Lemma parse_lines_app st l1 l2 :
  (parse_lines st l1).2 = None ->
  parse_lines st (l1 ++ l2) = parse_lines (parse_lines st l1).1 l2.
Proof.
  revert st. induction l1 as [|raw rest IH]; intros st; simpl; [done|].
  destruct (parse_line st raw) as [e|st']; [done | apply IH].
Qed.

(** The two maps that [parse_netlist] returns tell the same codes. *)
Lemma parse_netlist_codes fs path n :
  (parse_netlist fs path).1.2 !! n = code <$> ((parse_netlist fs path).1.1 !! n).
Proof.
  unfold parse_netlist. destruct (fs path) as [content| |msg]; simpl;
    [|by rewrite !lookup_empty..].
  destruct (parse_lines_ok init_pstate (readlines content) (pinv_init false))
    as [_ [_ H]].
  destruct (parse_lines init_pstate (readlines content)) as [st r]. apply H.
Qed.

(** A net declaration met inside the nets section. *)
Lemma parse_line_declare st raw c n :
  in_nets_section st = true -> net_re (strip raw) = Some (c, n) ->
  parse_line st raw = inr (declare_net c n st).
Proof.
  intros Hin Hre. unfold parse_line.
  destruct (net_re_shape _ _ _ Hre) as (-> & -> & ->). by rewrite Hin, Hre.
Qed.

(** A node line met inside the nets section while [n] is the current net. *)
Lemma parse_line_node st raw ref pin n :
  in_nets_section st = true -> node_re (strip raw) = Some (ref, pin) ->
  net_name st = Some n ->
  parse_line st raw =
    if is_empty n then inr st else append_node n (format_node ref pin) st.
Proof.
  intros Hin Hre Hn. unfold parse_line.
  destruct (node_re_shape _ _ _ Hre) as (-> & -> & -> & ->).
  by rewrite Hin, Hn, Hre.
Qed.

(** Node lines met while [n] is the current net are appended to its entry
    in order, unless [n] is the empty name. *)
Lemma parse_lines_nodes n nodelines refs : forall st e,
  Forall2 (fun l rp => node_re (strip l) = Some rp) nodelines refs ->
  in_nets_section st = true -> net_name st = Some n ->
  connections st !! n = Some e ->
  (parse_lines st nodelines).2 = None
  /\ connections (parse_lines st nodelines).1 !! n
     = Some (NetEntry (code e)
               (nodes e ++ if is_empty n then []
                           else (fun rp => format_node rp.1 rp.2) <$> refs))
  /\ net_codes (parse_lines st nodelines).1 = net_codes st.
Proof.
  intros st e HF. revert st e.
  induction HF as [|l [ref pin] ls rps Hre HF IH]; intros st e Hin Hn He; simpl.
  - destruct e as [c ns]. rewrite He. destruct (is_empty n); by rewrite app_nil_r.
  - rewrite (parse_line_node st l ref pin n Hin Hre Hn).
    destruct (is_empty n) eqn:Hemp.
    + by apply IH.
    + unfold append_node. rewrite He.
      match goal with |- context [parse_lines ?s ls] => set (st1 := s) end.
      destruct (IH st1 (NetEntry (code e) (nodes e ++ [format_node ref pin])))
        as (H1 & H2 & H3); [done | done | apply lookup_insert_eq |].
      split; [done|]. split; [|done].
      rewrite H2. simpl. by rewrite <- app_assoc.
Qed.

Local Ltac same_state :=
  intros [= <-] [= <-]; repeat split; try done; try congruence;
  intros;
  match goal with
  | H : forall m, _ -> connections _ !! m = _ |- _ => apply H; congruence
  end.

Lemma parse_line_agree n st st' raw a b :
  agree_on n st st' ->
  parse_line st raw = inr a -> parse_line st' raw = inr b -> agree_on n a b.
Proof.
  intros (Hin & Hnn & Hc & Hcur). unfold parse_line. rewrite <- Hin, <- Hnn.
  destruct (startswith (strip raw) "(nets"); [same_state|].
  destruct (startswith (strip raw) "(components"); [same_state|].
  destruct (if in_nets_section st && startswith (strip raw) "(net"
            then net_re (strip raw) else None) as [[c m]|].
  { intros [= <-] [= <-]. repeat split; simpl; [done|..].
    - destruct (decide (m = n)) as [->|Hne];
        [by rewrite !lookup_insert_eq | by rewrite !lookup_insert_ne].
    - intros ? [= <-]. by rewrite !lookup_insert_eq. }
  destruct (in_nets_section st && startswith (strip raw) "(node"); [|same_state].
  destruct (net_name st) as [m|] eqn:Hm; [|same_state].
  destruct (is_empty m); [same_state|].
  destruct (node_re (strip raw)) as [[ref pin]|]; [|same_state].
  unfold append_node. rewrite <- (Hcur m eq_refl).
  destruct (connections st !! m) as [e|]; [|done].
  intros [= <-] [= <-]. repeat split; simpl; [done | congruence |..].
  - destruct (decide (m = n)) as [->|Hne];
      [by rewrite !lookup_insert_eq | by rewrite !lookup_insert_ne].
  - rewrite Hm. intros ? [= <-]. by rewrite !lookup_insert_eq.
Qed.

Lemma parse_lines_agree n lines : forall st st',
  pinv st -> pinv st' -> agree_on n st st' ->
  connections (parse_lines st lines).1 !! n
  = connections (parse_lines st' lines).1 !! n.
Proof.
  induction lines as [|raw rest IH]; intros st st' Hi Hi' Ha; simpl.
  - by destruct Ha as (_ & _ & ? & _).
  - destruct (parse_line_ok st raw Hi) as (a & Ea & Hia).
    destruct (parse_line_ok st' raw Hi') as (b & Eb & Hib).
    rewrite Ea, Eb. apply IH; [done | done |].
    by apply (parse_line_agree n st st' raw).
Qed.

(** What [parse_netlist] returns for a file that can be read. *)
Lemma parse_netlist_ok fs path content :
  fs path = ReadOk content ->
  parse_netlist fs path
  = ((connections (parse_lines init_pstate (readlines content)).1,
      net_codes (parse_lines init_pstate (readlines content)).1), []).
Proof.
  intros E. unfold parse_netlist. rewrite E.
  destruct (parse_lines_ok init_pstate (readlines content) (pinv_init false))
    as [Hr _].
  destruct (parse_lines init_pstate (readlines content)) as [st r].
  simpl in *. by subst r.
Qed.

(** C5: when the file is missing, [parse_netlist] prints the
    file-not-found message and returns two empty mappings; when reading
    raises any other exception, it prints the unexpected-error message with
    the text of the exception and returns two empty mappings; and in every
    run in which a handler has printed something, the mappings returned are
    empty (no exception is raised once the loop has started filling them).
    The function is total: the run goes on with the pair returned. *)
Theorem parse_netlist_error_handling (fs : file_system) (path : string) :
  (fs path = ReadMissing ->
   parse_netlist fs path
   = ((∅, ∅), ["Error: File " +:+ path +:+ " not found."]))
  /\ (forall msg, fs path = ReadFails msg ->
      parse_netlist fs path
      = ((∅, ∅), ["Error: An unexpected error occurred while parsing "
                    +:+ path +:+ " - " +:+ msg]))
  /\ ((parse_netlist fs path).2 <> [] -> (parse_netlist fs path).1 = (∅, ∅)).
Proof.
  split; [|split].
  - intros E. unfold parse_netlist. by rewrite E.
  - intros msg E. unfold parse_netlist. by rewrite E.
  - destruct (fs path) as [content| |msg] eqn:E.
    + by rewrite (parse_netlist_ok fs path content E).
    + intros _. unfold parse_netlist. by rewrite E.
    + intros _. unfold parse_netlist. by rewrite E.
Qed.

Lemma parse_netlist_error_handling_witness :
  parse_netlist sample_fs "gone.net"
  = ((∅, ∅), ["Error: File gone.net not found."])
  /\ parse_netlist sample_fs "locked.net"
     = ((∅, ∅), ["Error: An unexpected error occurred while parsing locked.net - [Errno 13] Permission denied: 'locked.net'"]).
Proof.
  split.
  - apply (parse_netlist_error_handling sample_fs "gone.net"). reflexivity.
  - apply (parse_netlist_error_handling sample_fs "locked.net"). reflexivity.
Defined.

(** X20: in a readable file whose lines are [pre], then a net
    declaration of name [n] and code [c] met inside the nets section, then
    [post], the entry of [n] keeps nothing of [pre]: it is the entry that
    parsing the declaration and [post] alone gives (the dictionary entry is
    overwritten and its node list reset, so the last declaration wins).
    When [n] is not the empty name and [post] is made of node lines only,
    the entry has code [c] and the formatted nodes of [post] in order; with
    no node line the list is empty. *)
Theorem parse_netlist_last_declaration_wins
    (fs : file_system) (path content : string)
    (pre post : list string) (decl c n : string) :
  fs path = ReadOk content ->
  readlines content = pre ++ decl :: post ->
  in_nets_section (parse_lines init_pstate pre).1 = true ->
  net_re (strip decl) = Some (c, n) ->
  (parse_netlist fs path).1.1 !! n
  = connections (parse_lines (set_in_nets true init_pstate) (decl :: post)).1 !! n
  /\ (forall refs,
        n <> EmptyString ->
        Forall2 (fun l rp => node_re (strip l) = Some rp) post refs ->
        (parse_netlist fs path).1.1 !! n
        = Some (NetEntry c ((fun rp => format_node rp.1 rp.2) <$> refs))
        /\ (parse_netlist fs path).1.2 !! n = Some c).
Proof.
  intros Hfs Hlines Hin Hre.
  destruct (parse_lines_ok init_pstate pre (pinv_init false)) as [Hr Hinv].
  assert (Hstep : parse_lines init_pstate (pre ++ decl :: post)
                  = parse_lines (declare_net c n (parse_lines init_pstate pre).1) post).
  { rewrite (parse_lines_app _ _ _ Hr). simpl.
    by rewrite (parse_line_declare _ decl c n Hin Hre). }
  split.
  - rewrite (parse_netlist_ok fs path content Hfs), Hlines, Hstep. simpl.
    rewrite (parse_line_declare (set_in_nets true init_pstate) decl c n eq_refl Hre).
    apply parse_lines_agree.
    + by apply pinv_declare_net.
    + apply pinv_declare_net, (pinv_init true).
    + repeat split; simpl; [done | by rewrite !lookup_insert_eq |].
      intros ? [= <-]. by rewrite !lookup_insert_eq.
  - intros refs Hne HF.
    destruct (parse_lines_nodes n post refs
                (declare_net c n (parse_lines init_pstate pre).1)
                (NetEntry c []) HF)
      as (_ & H2 & H3); [done | done | apply lookup_insert_eq |].
    rewrite parse_netlist_codes.
    rewrite (parse_netlist_ok fs path content Hfs), Hlines, Hstep. simpl.
    rewrite H2. by destruct n.
Qed.

Lemma parse_netlist_last_declaration_wins_witness :
  (parse_netlist sample_fs "dup.net").1.1 !! "GND"
  = Some (NetEntry "7" [format_node "R1" "2"; format_node "C2" "1"])
  /\ (parse_netlist sample_fs "dup.net").1.2 !! "GND" = Some "7".
Proof.
  apply (proj2 (parse_netlist_last_declaration_wins sample_fs "dup.net"
                  netlist_dup netlist_dup_pre netlist_dup_nodes
                  (net_line "7" "GND" +:+ NL) "7" "GND"
                  eq_refl eq_refl eq_refl eq_refl)
               [("R1", "2"); ("C2", "1")]).
  - discriminate.
  - repeat constructor.
Defined.

(** C6: the code at the failing input.  A file declares the net of the
    empty name twice, each declaration followed by a node line: both
    declarations are registered and the last one wins, but the guard of
    line 37 takes the empty name for the absence of a current net, and the
    node line that follows the last declaration is not appended, against
    C6 as stated. *)
Lemma parse_netlist_unnamed_net_keeps_no_node :
  readlines netlist_unnamed
  = [ "  (nets" +:+ NL; net_line "1" EmptyString +:+ NL;
      node_line "R1" "1" +:+ NL; net_line "2" EmptyString +:+ NL;
      node_line "R2" "1" +:+ NL ]
  /\ net_re (strip (net_line "2" EmptyString +:+ NL)) = Some ("2", EmptyString)
  /\ node_re (strip (node_line "R2" "1" +:+ NL)) = Some ("R2", "1")
  /\ (parse_netlist sample_fs "unnamed.net").1.1 !! EmptyString
     = Some (NetEntry "2" [])
  /\ (parse_netlist sample_fs "unnamed.net").1.1 !! EmptyString
     <> Some (NetEntry "2" [format_node "R2" "1"]).
Proof. by vm_compute. Qed.

(** ** Facts about the comparison loop *)

Section LoopFacts.
Variables netlist1 netlist2 : gmap string net_entry.
Variables net_codes1 net_codes2 : gmap string string.

Lemma compare_foldl l : forall acc,
  foldl (compare_net netlist1 netlist2 net_codes1 net_codes2) acc l
  = CmpState (results acc ++ (result_of netlist1 netlist2 net_codes1 net_codes2 <$> l))
      (detailed_mismatches acc
         ++ (detail_of netlist1 netlist2 <$> filter (flagged netlist1 netlist2) l))
      (matched_count acc
         + length (filter (fun n => ~ flagged netlist1 netlist2 n) l))
      (mismatched_count acc + length (filter (flagged netlist1 netlist2) l)).
Proof.
  induction l as [|n l IH]; intros acc; simpl.
  - destruct acc. simpl. by rewrite !app_nil_r, !Nat.add_0_r.
  - rewrite IH, !filter_cons. unfold compare_net. simpl.
    destruct (decide (flagged netlist1 netlist2 n)) as [F|F].
    + rewrite decide_False by tauto. unfold flagged in F. rewrite F. simpl.
      f_equal; rewrite <- ?app_assoc; simpl; try done; lia.
    + rewrite decide_True by done. unfold flagged in F.
      apply not_true_is_false in F. rewrite F. simpl.
      f_equal; rewrite <- ?app_assoc; simpl; try done; lia.
Qed.

Lemma compare_loop_spec l :
  compare_loop netlist1 netlist2 net_codes1 net_codes2 l
  = CmpState (result_of netlist1 netlist2 net_codes1 net_codes2 <$> l)
      (detail_of netlist1 netlist2 <$> filter (flagged netlist1 netlist2) l)
      (length (filter (fun n => ~ flagged netlist1 netlist2 n) l))
      (length (filter (flagged netlist1 netlist2) l)).
Proof. unfold compare_loop. by rewrite compare_foldl. Qed.
End LoopFacts.

Lemma filter_length_split {A} (P : A -> Prop) `{!forall x, Decision (P x)} (l : list A) :
  length (filter (fun x => ~ P x) l) + length (filter P l) = length l.
Proof.
  induction l as [|x l IH]; [done|]. rewrite !filter_cons.
  destruct (decide (P x)).
  - rewrite decide_False by tauto. simpl. lia.
  - rewrite decide_True by done. simpl. lia.
Qed.

(** ** Facts about [unique_nodes] *)

Lemma elem_of_unique_nodes mine theirs x :
  x ∈ unique_nodes mine theirs <-> x ∈ mine /\ x ∉ theirs.
Proof. unfold unique_nodes. rewrite list_elem_of_filter. tauto. Qed.

Lemma unique_nodes_nil_r mine : unique_nodes mine [] = mine.
Proof.
  unfold unique_nodes. induction mine as [|x l IH]; [done|].
  rewrite filter_cons, decide_True by apply not_elem_of_nil. by rewrite IH.
Qed.



Lemma count_mismatch_true nodes1 nodes2 :
  count_mismatch nodes1 nodes2 = true
  <-> length (unique_nodes nodes1 nodes2) <> length (unique_nodes nodes2 nodes1).
Proof.
  unfold count_mismatch. rewrite negb_true_iff. apply Nat.eqb_neq.
Qed.

(** ** Facts about the sort *)

Lemma string_ltb_leb s1 s2 : String.ltb s1 s2 = negb (String.leb s2 s1).
Proof.
  unfold String.ltb, String.leb. rewrite (String.compare_antisym s1 s2).
  by destruct (String.compare s2 s1).
Qed.

Lemma key_le_spec b1 s1 b2 s2 :
  key_le (b1, s1) (b2, s2) = true
  <-> (b1 = false /\ b2 = true) \/ (b1 = b2 /\ String.le s1 s2).
Proof.
  unfold key_le, key_lt, String.le. simpl. rewrite string_ltb_leb.
  destruct b1, b2; simpl; rewrite ?negb_involutive;
    split; try tauto; try (intros H; right; split; [done | by apply Is_true_true]);
    try (intros [[??]|[? H]]; try done; by apply Is_true_true);
    try (intros [[??]|[??]]; done).
Qed.

Lemma result_le_spec x y :
  result_le x y
  <-> (r_is_mismatch x = true /\ r_is_mismatch y = false)
      \/ (r_is_mismatch x = r_is_mismatch y /\ code_le x y).
Proof.
  unfold result_le, sort_key, code_le. rewrite key_le_spec.
  destruct (r_is_mismatch x), (r_is_mismatch y); simpl; intuition congruence.
Qed.

Global Instance result_le_trans : Transitive result_le.
Proof.
  intros x y z. rewrite !result_le_spec. unfold code_le.
  intros [[??]|[? Hxy]] [[??]|[? Hyz]]; try (left; split; congruence).
  right. split; [congruence|]. by etrans.
Qed.

Lemma result_le_total x y : result_le x y \/ result_le y x.
Proof.
  rewrite !result_le_spec. unfold code_le.
  destruct (r_is_mismatch x), (r_is_mismatch y); try tauto;
    destruct (String.le_total (r_net_code1 x) (r_net_code1 y)); tauto.
Qed.

Lemma sort_insert_perm x l : sort_insert x l ≡ₚ x :: l.
Proof.
  induction l as [|y l IH]; simpl; [done|].
  destruct (key_lt (sort_key y) (sort_key x)); [|done].
  rewrite IH. apply Permutation_swap.
Qed.

Lemma py_sort_perm l : py_sort l ≡ₚ l.
Proof.
  induction l as [|x l IH]; simpl; [done|]. by rewrite sort_insert_perm, IH.
Qed.

Lemma sort_insert_sorted x l :
  StronglySorted result_le l -> StronglySorted result_le (sort_insert x l).
Proof.
  induction 1 as [|y l Hs IH Hall]; simpl; [by repeat constructor|].
  destruct (key_lt (sort_key y) (sort_key x)) eqn:E.
  - constructor; [done|]. rewrite sort_insert_perm. constructor; [|done].
    destruct (result_le_total y x) as [H|H]; [done|].
    unfold result_le, key_le in H. by rewrite E in H.
  - assert (Hxy : result_le x y) by (unfold result_le, key_le; by rewrite E).
    constructor; [by constructor|]. constructor; [done|].
    eapply Forall_impl; [exact Hall|]. intros z Hz. by etrans.
Qed.

Lemma py_sort_sorted l : StronglySorted result_le (py_sort l).
Proof.
  induction l as [|x l IH]; simpl; [constructor | by apply sort_insert_sorted].
Qed.

(** A list sorted by the key is the flagged rows then the others, each
    group in the order of the first net code. *)
Lemma sorted_groups l :
  StronglySorted result_le l ->
  exists mism ok,
    l = mism ++ ok
    /\ Forall (fun x => r_is_mismatch x = true) mism
    /\ Forall (fun x => r_is_mismatch x = false) ok
    /\ StronglySorted code_le mism
    /\ StronglySorted code_le ok.
Proof.
  induction 1 as [|x l Hs (mism & ok & -> & Hm & Ho & Sm & So) Hall].
  - exists [], []. split_and!; constructor.
  - destruct (r_is_mismatch x) eqn:Ex.
    + exists (x :: mism), ok. split_and!; [done | by constructor | done | | done].
      constructor; [done|]. apply Forall_app in Hall as [Hall _].
      rewrite Forall_forall in Hall, Hm |- *. intros y Hy.
      specialize (Hall y Hy). apply result_le_spec in Hall.
      destruct Hall as [[_ H]|[_ H]]; [|done]. rewrite (Hm y Hy) in H. done.
    + assert (mism = []) as ->.
      { destruct mism as [|y mism]; [done|]. exfalso.
        apply Forall_cons in Hall as [H _]. apply Forall_cons in Hm as [Hy _].
        apply result_le_spec in H. rewrite Ex, Hy in H.
        destruct H as [[??]|[??]]; done. }
      exists [], (x :: ok). simpl in *.
      split_and!; [done | constructor | by constructor | constructor |].
      constructor; [done|].
      rewrite Forall_forall in Hall, Ho |- *. intros y Hy.
      specialize (Hall y Hy). apply result_le_spec in Hall.
      destruct Hall as [[H _]|[_ H]]; [|done]. rewrite Ex in H. done.
Qed.

(** ** The comparison *)

Lemma names_of_results netlist1 netlist2 net_codes1 net_codes2 (l : list string) :
  r_net_name <$> (result_of netlist1 netlist2 net_codes1 net_codes2 <$> l) = l.
Proof. induction l as [|n l IH]; [done|]. rewrite !fmap_cons. by rewrite IH. Qed.

Lemma flagged_results netlist1 netlist2 net_codes1 net_codes2 (l : list string) :
  filter (fun r => r_is_mismatch r = true)
    (result_of netlist1 netlist2 net_codes1 net_codes2 <$> l)
  = result_of netlist1 netlist2 net_codes1 net_codes2
      <$> filter (flagged netlist1 netlist2) l.
Proof.
  induction l as [|n l IH]; [done|]. rewrite fmap_cons, !filter_cons, IH.
  destruct (decide (flagged netlist1 netlist2 n)) as [F|F]; unfold flagged in F.
  - by rewrite decide_True.
  - by rewrite decide_False.
Qed.

Lemma names_of_details netlist1 netlist2 (l : list string) :
  d_net_name <$> (detail_of netlist1 netlist2 <$> l) = l.
Proof. induction l as [|n l IH]; [done|]. rewrite !fmap_cons. by rewrite IH. Qed.

Section CompareFacts.
Variable set_order : gset string -> list string.

Lemma compare_core_spec netlist1 net_codes1 netlist2 net_codes2 :
  compare_core set_order (netlist1, net_codes1) (netlist2, net_codes2)
  = let order := set_order (dom netlist1 ∪ dom netlist2) in
    CmpState (py_sort (result_of netlist1 netlist2 net_codes1 net_codes2 <$> order))
      (detail_of netlist1 netlist2 <$> filter (flagged netlist1 netlist2) order)
      (length (filter (fun n => ~ flagged netlist1 netlist2 n) order))
      (length (filter (flagged netlist1 netlist2) order)).
Proof. unfold compare_core. by rewrite compare_loop_spec. Qed.


(** C4: the sorted results are the flagged rows followed by the others,
    and each of the two groups is in non-decreasing order of the first
    file's net code, compared as a string; the sort keeps every row. *)
Theorem results_mismatches_first_then_by_code
    (p1 p2 : gmap string net_entry * gmap string string) :
  exists mism ok,
    results (compare_core set_order p1 p2) = mism ++ ok
    /\ Forall (fun x => r_is_mismatch x = true) mism
    /\ Forall (fun x => r_is_mismatch x = false) ok
    /\ StronglySorted code_le mism
    /\ StronglySorted code_le ok
    /\ mism ++ ok ≡ₚ result_of p1.1 p2.1 p1.2 p2.2
                       <$> set_order (dom p1.1 ∪ dom p2.1).
Proof.
  destruct p1 as [n1 c1], p2 as [n2 c2]. rewrite compare_core_spec. simpl.
  destruct (sorted_groups _ (py_sort_sorted
              (result_of n1 n2 c1 c2 <$> set_order (dom n1 ∪ dom n2))))
    as (mism & ok & E & ?).
  exists mism, ok. split_and!; try tauto. by rewrite <- E, py_sort_perm.
Qed.

Hypothesis set_order_perm : forall X, set_order X ≡ₚ elements X.

Lemma elem_of_set_order X n : n ∈ set_order X <-> n ∈ X.
Proof. by rewrite set_order_perm, elem_of_elements. Qed.

Lemma NoDup_set_order X : NoDup (set_order X).
Proof. rewrite set_order_perm. apply NoDup_elements. Qed.

Lemma result_in_results netlist1 net_codes1 netlist2 net_codes2 name :
  name ∈ dom netlist1 ∪ dom netlist2 ->
  result_of netlist1 netlist2 net_codes1 net_codes2 name
    ∈ results (compare_core set_order (netlist1, net_codes1) (netlist2, net_codes2)).
Proof.
  intros Hn. rewrite compare_core_spec. simpl. rewrite py_sort_perm.
  apply list_elem_of_fmap_2. by apply elem_of_set_order.
Qed.



(** C10: the two counters add up to the number of net names of the union,
    which is also the number of rows of the results; the detailed entries
    are as many as the flagged nets; every net name of the union has one
    row; the mismatch counter counts the flagged rows, and the detailed
    entries are those of the flagged rows. *)
Theorem counts_partition_the_union
    (netlist1 netlist2 : gmap string net_entry)
    (net_codes1 net_codes2 : gmap string string) :
  let acc := compare_core set_order (netlist1, net_codes1) (netlist2, net_codes2) in
  matched_count acc + mismatched_count acc = size (dom netlist1 ∪ dom netlist2)
  /\ length (results acc) = size (dom netlist1 ∪ dom netlist2)
  /\ length (detailed_mismatches acc) = mismatched_count acc
  /\ r_net_name <$> results acc ≡ₚ elements (dom netlist1 ∪ dom netlist2)
  /\ mismatched_count acc
     = length (filter (fun r => r_is_mismatch r = true) (results acc))
  /\ d_net_name <$> detailed_mismatches acc
     ≡ₚ r_net_name <$> filter (fun r => r_is_mismatch r = true) (results acc).
Proof.
  intros acc. subst acc. rewrite compare_core_spec. simpl.
  set (order := set_order (dom netlist1 ∪ dom netlist2)).
  assert (Hlen : length order = size (dom netlist1 ∪ dom netlist2)).
  { unfold order, size, set_size. simpl. by rewrite set_order_perm. }
  split_and!.
  - by rewrite filter_length_split.
  - by rewrite py_sort_perm, length_fmap.
  - by rewrite length_fmap.
  - rewrite py_sort_perm, names_of_results. apply set_order_perm.
  - by rewrite py_sort_perm, flagged_results, length_fmap.
  - by rewrite py_sort_perm, flagged_results, names_of_details, names_of_results.
Qed.

(** C3: a net that only one of the two parsed files has, with [N] nodes
    there, has one row in the results; the row gives the code ["N/A"] and
    the count 0 for the side that lacks the net; the nodes unique to the
    side that has it are its [N] nodes and the other side has none; the row
    is flagged exactly when [N > 0], and then the detailed entry is
    recorded. *)
Theorem net_in_one_file_only
    (fs : file_system) (file1 file2 name : string) (e : net_entry) :
  let p1 := (parse_netlist fs file1).1 in
  let p2 := (parse_netlist fs file2).1 in
  (p1.1 !! name = None /\ p2.1 !! name = Some e)
  \/ (p1.1 !! name = Some e /\ p2.1 !! name = None) ->
  let r := result_of p1.1 p2.1 p1.2 p2.2 name in
  let d := detail_of p1.1 p2.1 name in
  r ∈ results (compare_core set_order p1 p2)
  /\ (p1.1 !! name = None ->
      r_net_code1 r = "N/A" /\ r_count1 r = 0
      /\ r_net_code2 r = code e /\ r_count2 r = length (nodes e)
      /\ d_unique_nodes1 d = [] /\ d_count1 d = 0
      /\ d_unique_nodes2 d = nodes e /\ d_count2 d = length (nodes e))
  /\ (p2.1 !! name = None ->
      r_net_code2 r = "N/A" /\ r_count2 r = 0
      /\ r_net_code1 r = code e /\ r_count1 r = length (nodes e)
      /\ d_unique_nodes2 d = [] /\ d_count2 d = 0
      /\ d_unique_nodes1 d = nodes e /\ d_count1 d = length (nodes e))
  /\ (r_is_mismatch r = true <-> 0 < length (nodes e))
  /\ (0 < length (nodes e) ->
      d ∈ detailed_mismatches (compare_core set_order p1 p2)).
Proof.
  intros p1 p2 H r d.
  assert (Hc1 : p1.2 !! name = code <$> p1.1 !! name) by apply parse_netlist_codes.
  assert (Hc2 : p2.2 !! name = code <$> p2.1 !! name) by apply parse_netlist_codes.
  assert (Hin : name ∈ dom p1.1 ∪ dom p2.1).
  { apply elem_of_union. rewrite !elem_of_dom.
    destruct H as [[_ ->]|[-> _]]; [right | left]; by eexists. }
  assert (Hmis : r_is_mismatch r = true <-> 0 < length (nodes e)).
  { subst r. simpl. rewrite count_mismatch_true. unfold get_nodes.
    destruct H as [[-> ->]|[-> ->]]; simpl; rewrite unique_nodes_nil_r; simpl; lia. }
  subst r d. destruct p1 as [n1 c1], p2 as [n2 c2]. cbn [fst snd] in *.
  split_and!.
  - by apply result_in_results.
  - intros E1. destruct H as [[_ E2]|[E2 _]]; [|congruence].
    simpl. unfold get_code, get_nodes. rewrite Hc1, Hc2, E1, E2. simpl.
    by rewrite unique_nodes_nil_r.
  - intros E2. destruct H as [[_ E1]|[E1 _]]; [congruence|].
    simpl. unfold get_code, get_nodes. rewrite Hc1, Hc2, E1, E2. simpl.
    by rewrite unique_nodes_nil_r.
  - done.
  - intros HN. rewrite compare_core_spec. simpl.
    apply list_elem_of_fmap_2, list_elem_of_filter. split.
    + by apply Hmis.
    + by apply elem_of_set_order.
Qed.
End CompareFacts.

(** ** The comparison on the sample files *)

Lemma elements_order (X : gset string) : elements X ≡ₚ elements X.
Proof. reflexivity. Qed.



Lemma counts_partition_the_union_witness :
  let acc := compare_core elements (parsed_a.1, parsed_a.2) (parsed_b.1, parsed_b.2) in
  matched_count acc + mismatched_count acc = size (dom parsed_a.1 ∪ dom parsed_b.1)
  /\ length (results acc) = size (dom parsed_a.1 ∪ dom parsed_b.1)
  /\ length (detailed_mismatches acc) = mismatched_count acc
  /\ r_net_name <$> results acc ≡ₚ elements (dom parsed_a.1 ∪ dom parsed_b.1)
  /\ mismatched_count acc
     = length (filter (fun r => r_is_mismatch r = true) (results acc))
  /\ d_net_name <$> detailed_mismatches acc
     ≡ₚ r_net_name <$> filter (fun r => r_is_mismatch r = true) (results acc).
Proof.
  apply (counts_partition_the_union elements elements_order
           parsed_a.1 parsed_b.1 parsed_a.2 parsed_b.2).
Defined.

Lemma net_in_one_file_only_witness :
  let r := result_of parsed_a.1 parsed_b.1 parsed_a.2 parsed_b.2 "SIG" in
  r ∈ results (compare_core elements parsed_a parsed_b)
  /\ (r_is_mismatch r = true <-> 0 < 1).
Proof.
  pose proof (net_in_one_file_only elements elements_order sample_fs
                "a.net" "b.net" "SIG" (NetEntry "3" [format_node "R7" "1"])) as H.
  cbv zeta in H.
  destruct H as (H1 & _ & _ & H4 & _).
  - left. split; vm_compute; reflexivity.
  - split; [exact H1 | exact H4].
Defined.

(** What the comparison of the two sample files gives: GND and SIG are
    flagged and come first; VCC, whose two node lists are disjoint and of
    the same length, is not flagged. *)
Example compare_samples :
  compare_core elements parsed_a parsed_b
  = CmpState
      [ Result "GND" "1" 2 "1" 3 true;
        Result "SIG" "N/A" 0 "3" 1 true;
        Result "VCC" "2" 1 "2" 1 false ]
      (detailed_mismatches (compare_core elements parsed_a parsed_b))
      1 2.
Proof. vm_compute. reflexivity. Qed.

(** ** categorize_nodes *)

Lemma categorize_nodes_snoc nodes node :
  categorize_nodes (nodes ++ [node])
  = categorize_node (categorize_nodes nodes) node.
Proof. unfold categorize_nodes. by rewrite foldl_app. Qed.

(** C8, as amended: one more node changes the counts by the first
    character of the reference designator that the pattern extracts from
    it: the capacitors go up by one when it is an upper-case C, the
    resistors go up by one when it is an upper-case R, and the others go up
    by one in all remaining cases (another first character, an empty
    designator); nothing beyond the first character is looked at, and the
    two other counts stay as they are.  A node string from which the
    pattern extracts no designator changes no count. *)
Theorem categorize_by_first_character (nodes : list string) (node : string) :
  let before := categorize_nodes nodes in
  let after := categorize_nodes (nodes ++ [node]) in
  match ref_re node with
  | Some (String c _) =>
      if Ascii.eqb c "C" then
        after = Categories (S (Capacitors before)) (Resistors before) (Others before)
      else if Ascii.eqb c "R" then
        after = Categories (Capacitors before) (S (Resistors before)) (Others before)
      else
        after = Categories (Capacitors before) (Resistors before) (S (Others before))
  | Some EmptyString =>
      after = Categories (Capacitors before) (Resistors before) (S (Others before))
  | None => after = before
  end.
Proof.
  intros before after. subst before after.
  rewrite categorize_nodes_snoc. unfold categorize_node.
  destruct (ref_re node) as [[|c r]|]; [done | | done].
  unfold category_of_ref, startswith. cbn [remove_prefix].
  rewrite (Ascii.eqb_sym c "C"), (Ascii.eqb_sym c "R").
  by destruct (Ascii.eqb "C" c), (Ascii.eqb "R" c).
Qed.

(** C8 as stated fails on a node string without a reference designator:
    it is counted in no category, not in the others. *)
Lemma node_without_designator_is_not_counted :
  ref_re "(node (pin 4))" = None
  /\ categorize_nodes ["(node (pin 4))"] = Categories 0 0 0
  /\ Others (categorize_nodes ["(node (pin 4))"]) = 0.
Proof. split_and!; vm_compute; reflexivity. Qed.

(** The examples of the specification, and the case of the letters. *)
Example categorize_examples :
  categorize_nodes
    [format_node "C10" "1"; format_node "R7" "2"; format_node "U3" "4";
     format_node "D2" "1"; format_node "CR1" "2"; format_node "c5" "1";
     format_node "r5" "1"; format_node EmptyString "1"]
  = Categories 2 1 5.
Proof. vm_compute. reflexivity. Qed.

(** A string in which the pattern finds no reference designator is
    counted nowhere. *)
Lemma categorize_node_without_ref cats node :
  ref_re node = None -> categorize_node cats node = cats.
Proof. intros H. unfold categorize_node. by rewrite H. Qed.

(** The node strings of the program all have one. *)
Lemma lazy_group_no_newline {B} (k : string -> option B) s g b :
  lazy_group k s = Some (g, b) -> no_newline g = true.
Proof.
  revert g. induction s as [|c s IH]; intros g; simpl.
  - destruct (k EmptyString); [by intros [= <- _] | done].
  - destruct (k (String c s)); [by intros [= <- _]|].
    destruct (Ascii.eqb c newline) eqn:E; [done|].
    destruct (lazy_group k s) as [[g' b']|]; [|done].
    intros [= <- <-]. simpl. rewrite E. simpl. by apply IH.
Qed.

Lemma lazy_group_app {B} (k : string -> option B) g t :
  no_newline g = true -> is_Some (k t) -> is_Some (lazy_group k (g +:+ t)).
Proof.
  intros Hg [b Hk]. induction g as [|c g IH]; simpl.
  - destruct t; simpl; rewrite Hk; by eexists.
  - simpl in Hg. apply andb_true_iff in Hg as [Hc Hg].
    destruct (k (String c (g +:+ t))); [by eexists|].
    apply negb_true_iff in Hc. rewrite Hc.
    destruct (IH Hg) as [[g' b'] ->]. by eexists.
Qed.

Lemma re_search_skip {B} (m : string -> option B) c s :
  m (String c s) = None -> re_search m (String c s) = re_search m s.
Proof. intros H. simpl. by rewrite H. Qed.

Lemma re_search_here {B} (m : string -> option B) s b :
  m s = Some b -> re_search m s = Some b.
Proof. intros H. destruct s; simpl; by rewrite H. Qed.

Lemma ref_re_format_node ref pin :
  no_newline ref = true -> is_Some (ref_re (format_node ref pin)).
Proof.
  intros Hg. unfold ref_re, format_node.
  destruct (lazy_group_app (lit GROUP_CLOSE accept) ref
              (NODE_MID +:+ pin +:+ NODE_CLOSE) Hg) as [[g b] E]; [by eexists|].
  assert (re_search (lit REF_OPEN (lazy_group (lit GROUP_CLOSE accept)))
            (NODE_OPEN +:+ ref +:+ NODE_MID +:+ pin +:+ NODE_CLOSE)
          = Some (g, b)) as ->; [|by eexists].
  change (NODE_OPEN +:+ ref +:+ NODE_MID +:+ pin +:+ NODE_CLOSE)
    with (String "(" (String "n" (String "o" (String "d" (String "e" (String " "
            (REF_OPEN +:+ ref +:+ NODE_MID +:+ pin +:+ NODE_CLOSE))))))).
  do 6 (rewrite re_search_skip by reflexivity).
  apply re_search_here. unfold lit at 1. by rewrite remove_prefix_app.
Qed.

Lemma node_re_ref_no_newline line ref pin :
  node_re line = Some (ref, pin) -> no_newline ref = true.
Proof.
  unfold node_re, lit. destruct (remove_prefix NODE_OPEN line) as [r|]; [|done].
  destruct (lazy_group _ r) as [[g [p u]]|] eqn:E; [|done].
  intros [= <- _]. by apply lazy_group_no_newline in E.
Qed.

Lemma nodes_have_ref_insert m n e :
  nodes_have_ref m -> Forall (fun node => is_Some (ref_re node)) (nodes e) ->
  nodes_have_ref (<[n := e]> m).
Proof.
  intros Hm He k e'. destruct (decide (n = k)) as [->|Hne].
  - rewrite lookup_insert_eq. by intros [= <-].
  - rewrite lookup_insert_ne by done. apply Hm.
Qed.

Lemma parse_line_nodes_have_ref st raw st' :
  nodes_have_ref (connections st) -> parse_line st raw = inr st' ->
  nodes_have_ref (connections st').
Proof.
  intros Hm. unfold parse_line.
  destruct (startswith (strip raw) "(nets"); [by intros [= <-]|].
  destruct (startswith (strip raw) "(components"); [by intros [= <-]|].
  destruct (if in_nets_section st && startswith (strip raw) "(net"
            then net_re (strip raw) else None) as [[c n]|].
  { intros [= <-]. simpl. apply nodes_have_ref_insert; [done | constructor]. }
  destruct (in_nets_section st && startswith (strip raw) "(node");
    [|by intros [= <-]].
  destruct (net_name st) as [n|]; [|by intros [= <-]].
  destruct (is_empty n); [by intros [= <-]|].
  destruct (node_re (strip raw)) as [[ref pin]|] eqn:Hre; [|by intros [= <-]].
  unfold append_node. destruct (connections st !! n) as [e|] eqn:He; [|done].
  intros [= <-]. simpl. apply nodes_have_ref_insert; [done|]. simpl.
  apply Forall_app. split; [by apply (Hm n e)|].
  constructor; [|constructor].
  apply ref_re_format_node. by apply (node_re_ref_no_newline _ _ _ Hre).
Qed.

Lemma parse_lines_nodes_have_ref lines : forall st,
  nodes_have_ref (connections st) ->
  nodes_have_ref (connections (parse_lines st lines).1).
Proof.
  induction lines as [|raw rest IH]; intros st Hm; simpl; [done|].
  destruct (parse_line st raw) as [e|st'] eqn:E; [done|].
  apply IH. by apply (parse_line_nodes_have_ref st raw).
Qed.

(** Every node string that [parse_netlist] stores has a reference
    designator for [categorize_nodes] to extract. *)
Lemma parse_netlist_nodes_have_ref fs path :
  nodes_have_ref (parse_netlist fs path).1.1.
Proof.
  assert (H0 : nodes_have_ref (connections init_pstate)) by (intros n e; done).
  unfold parse_netlist. destruct (fs path) as [content| |msg]; simpl; try done.
  pose proof (parse_lines_nodes_have_ref (readlines content) init_pstate H0) as H.
  by destruct (parse_lines init_pstate (readlines content)).
Qed.

(** On such nodes every node is counted in one of the three categories. *)
Lemma categorize_nodes_counts_all nodes :
  Forall (fun node => is_Some (ref_re node)) nodes ->
  Capacitors (categorize_nodes nodes) + Resistors (categorize_nodes nodes)
  + Others (categorize_nodes nodes) = length nodes.
Proof.
  induction nodes as [|node nodes IH] using rev_ind; intros H; [done|].
  apply Forall_app in H as [H1 H2]. apply Forall_cons in H2 as [[ref Href] _].
  rewrite categorize_nodes_snoc. unfold categorize_node. rewrite Href.
  rewrite length_app. simpl. specialize (IH H1).
  destruct (category_of_ref ref); simpl; lia.
Qed.

(** ** generate_html_report *)

Lemma string_app_cons c s t : String c s +:+ t = String c (s +:+ t).
Proof. reflexivity. Qed.

Lemma string_app_nil_r s : s +:+ EmptyString = s.
Proof. induction s as [|c s IH]; [done|]. by rewrite string_app_cons, IH. Qed.

Lemma string_app_assoc s t u : (s +:+ t) +:+ u = s +:+ (t +:+ u).
Proof. induction s as [|c s IH]; [done|]. by rewrite !string_app_cons, IH. Qed.

Lemma string_length_app s t :
  String.length (s +:+ t) = String.length s + String.length t.
Proof. induction s as [|c s IH]; [done|]. rewrite string_app_cons. simpl. by rewrite IH. Qed.

Lemma no_open_app x y :
  no_open (x +:+ y) = true -> no_open x = true /\ no_open y = true.
Proof.
  induction x as [|a x IH]; [done|]. rewrite string_app_cons.
  destruct x as [|b x].
  - change (EmptyString +:+ y) with y. destruct y as [|b y]; [done|].
    cbn [no_open]. intros [_ H]%andb_true_iff. done.
  - rewrite string_app_cons in *. cbn [no_open].
    intros [H1 H2]%andb_true_iff. destruct (IH H2) as [H3 H4].
    split; [|done]. apply andb_true_iff. split; [done|].
    exact H3.
Qed.

(** Passing over the characters of an occurrence. *)
Lemma replace_go_skip old new x y :
  replace_go old new (String.length x) (x +:+ y) = replace_go old new 0 y.
Proof.
  induction x as [|c x IH]; [by destruct y|]. rewrite string_app_cons. simpl. apply IH.
Qed.

(** An occurrence at the head of the text is replaced. *)
Lemma replace_go_here c old new y :
  replace_go (String c old) new 0 (String c old +:+ y)
  = new +:+ replace_go (String c old) new 0 y.
Proof.
  rewrite string_app_cons. cbn [replace_go]. rewrite <- string_app_cons.
  unfold startswith. rewrite remove_prefix_app.
  replace (String.length (String c old) - 1) with (String.length old)
    by (simpl; lia).
  by rewrite replace_go_skip.
Qed.

(** A text without two opening braces in a row holds no occurrence of a
    token that opens with two braces and a space, even when it is followed
    by such a token. *)
Lemma replace_go_plain t new a r :
  no_open a = true ->
  r = EmptyString \/ (exists r', r = String "{" (String "{" r')) ->
  replace_go (String "{" (String "{" (String " " t))) new 0 (a +:+ r)
  = a +:+ replace_go (String "{" (String "{" (String " " t))) new 0 r.
Proof.
  intros Ha Hr. induction a as [|c a IH]; [done|].
  rewrite !string_app_cons. cbn [replace_go].
  assert (startswith (String c (a +:+ r)) (String "{" (String "{" (String " " t)))
          = false) as ->.
  { unfold startswith. cbn [remove_prefix].
    destruct (Ascii.eqb "{" c) eqn:Ec; [|done].
    apply Ascii.eqb_eq in Ec as <-.
    destruct a as [|b a].
    - change (EmptyString +:+ r) with r.
      destruct Hr as [->|[r' ->]]; [done|]. cbn [remove_prefix]. simpl. done.
    - rewrite string_app_cons. cbn [remove_prefix no_open] in *.
      apply andb_true_iff in Ha as [Ha _]. simpl in Ha.
      rewrite (Ascii.eqb_sym "{" b). by destruct (Ascii.eqb b "{"). }
  f_equal. apply IH.
  destruct a as [|b a]; [done|]. cbn [no_open] in Ha.
  by apply andb_true_iff in Ha as [_ Ha].
Qed.

Lemma replace_plain t new a :
  no_open a = true ->
  replace (String "{" (String "{" (String " " t))) new a = a.
Proof.
  intros Ha. unfold replace. cbn [is_empty].
  rewrite <- (string_app_nil_r a) at 1.
  rewrite replace_go_plain by auto. by destruct a; rewrite ?string_app_nil_r.
Qed.

Lemma placeholder_ROWS : placeholder ROWS.
Proof. by eexists. Qed.

Lemma placeholder_DETAILED_ROWS : placeholder DETAILED_ROWS.
Proof. by eexists. Qed.

Lemma placeholder_FOOTER_INFO : placeholder FOOTER_INFO.
Proof. by eexists. Qed.

Lemma replace_placeholder tok new s :
  placeholder tok -> replace tok new s = replace_go tok new 0 s.
Proof. by intros [t ->]. Qed.

Lemma replace_go_before tok tok' new x y :
  placeholder tok -> placeholder tok' -> no_open x = true ->
  replace_go tok new 0 (x +:+ tok' +:+ y)
  = x +:+ replace_go tok new 0 (tok' +:+ y).
Proof.
  intros [t ->] [t' ->] Hx. apply replace_go_plain; [done|].
  right. by eexists.
Qed.

Lemma replace_go_last tok new x :
  placeholder tok -> no_open x = true -> replace_go tok new 0 x = x.
Proof.
  intros [t ->] Hx. rewrite <- (string_app_nil_r x) at 1.
  rewrite replace_go_plain by auto. by destruct x; rewrite ?string_app_nil_r.
Qed.

Lemma replace_go_at tok new y :
  placeholder tok ->
  replace_go tok new 0 (tok +:+ y) = new +:+ replace_go tok new 0 y.
Proof. intros [t ->]. apply replace_go_here. Qed.

(** The search for one placeholder passes over another one. *)
Lemma rows_over_detailed new z :
  replace_go ROWS new 0 (DETAILED_ROWS +:+ z)
  = DETAILED_ROWS +:+ replace_go ROWS new 0 z.
Proof. reflexivity. Qed.

Lemma rows_over_footer new z :
  replace_go ROWS new 0 (FOOTER_INFO +:+ z)
  = FOOTER_INFO +:+ replace_go ROWS new 0 z.
Proof. reflexivity. Qed.

Lemma detailed_over_footer new z :
  replace_go DETAILED_ROWS new 0 (FOOTER_INFO +:+ z)
  = FOOTER_INFO +:+ replace_go DETAILED_ROWS new 0 z.
Proof. reflexivity. Qed.

(** In a template with one occurrence of each placeholder, each is
    replaced by its fragment. *)
Lemma fill_template_once a b c d rows detailed_rows footer_info :
  no_open (a +:+ rows +:+ b +:+ detailed_rows +:+ c) = true ->
  no_open d = true ->
  fill_template
    (a +:+ ROWS +:+ b +:+ DETAILED_ROWS +:+ c +:+ FOOTER_INFO +:+ d)
    rows detailed_rows footer_info
  = a +:+ rows +:+ b +:+ detailed_rows +:+ c +:+ footer_info +:+ d.
Proof.
  intros H Hd.
  assert (Hab : no_open (a +:+ rows +:+ b) = true).
  { rewrite <- !string_app_assoc in H. apply no_open_app in H as [H _].
    apply no_open_app in H as [H _]. by rewrite string_app_assoc in H. }
  assert (Habc : no_open (a +:+ rows +:+ b +:+ detailed_rows +:+ c) = true) by done.
  apply no_open_app in H as [Ha H]. apply no_open_app in H as [_ H].
  apply no_open_app in H as [Hb H]. apply no_open_app in H as [_ Hc].
  unfold fill_template.
  rewrite !replace_placeholder
    by auto using placeholder_ROWS, placeholder_DETAILED_ROWS, placeholder_FOOTER_INFO.
  (* the rows *)
  rewrite (replace_go_before ROWS ROWS)
    by auto using placeholder_ROWS.
  rewrite (replace_go_at ROWS) by apply placeholder_ROWS.
  rewrite (replace_go_before ROWS DETAILED_ROWS)
    by auto using placeholder_ROWS, placeholder_DETAILED_ROWS.
  rewrite rows_over_detailed.
  rewrite (replace_go_before ROWS FOOTER_INFO)
    by auto using placeholder_ROWS, placeholder_FOOTER_INFO.
  rewrite rows_over_footer.
  rewrite (replace_go_last ROWS) by auto using placeholder_ROWS.
  (* the detailed rows *)
  rewrite <- (string_app_assoc rows b), <- (string_app_assoc a (rows +:+ b)).
  rewrite (replace_go_before DETAILED_ROWS DETAILED_ROWS)
    by (rewrite ?string_app_assoc; auto using placeholder_DETAILED_ROWS).
  rewrite (replace_go_at DETAILED_ROWS) by apply placeholder_DETAILED_ROWS.
  rewrite (replace_go_before DETAILED_ROWS FOOTER_INFO)
    by auto using placeholder_DETAILED_ROWS, placeholder_FOOTER_INFO.
  rewrite detailed_over_footer.
  rewrite (replace_go_last DETAILED_ROWS) by auto using placeholder_DETAILED_ROWS.
  (* the footer *)
  rewrite <- (string_app_assoc detailed_rows c),
          <- (string_app_assoc _ (detailed_rows +:+ c)).
  rewrite (replace_go_before FOOTER_INFO FOOTER_INFO)
    by (rewrite ?string_app_assoc; auto using placeholder_FOOTER_INFO).
  rewrite (replace_go_at FOOTER_INFO) by apply placeholder_FOOTER_INFO.
  rewrite (replace_go_last FOOTER_INFO) by auto using placeholder_FOOTER_INFO.
  by rewrite !string_app_assoc.
Qed.

(** ** [replace] and the occurrences of a token *)

Lemma string_app_eq_cons u v a s :
  u +:+ v = String a s ->
  (u = EmptyString /\ v = String a s)
  \/ exists u', u = String a u' /\ s = u' +:+ v.
Proof.
  destruct u as [|b u]; [by left|]. rewrite string_app_cons.
  intros [= -> <-]. right. by exists u.
Qed.

Lemma str_join_cons sep p ps :
  ps <> [] -> str_join sep (p :: ps) = p +:+ sep +:+ str_join sep ps.
Proof. by destruct ps. Qed.

Lemma leftmost_split_nonempty old s ps : leftmost_split old s ps -> ps <> [].
Proof. by destruct 1. Qed.

Lemma replace_go_free c old new s :
  (forall u v, s = u +:+ v -> startswith v (String c old) = false) ->
  replace_go (String c old) new 0 s = s.
Proof.
  induction s as [|a s IH]; intros H; [done|]. cbn [replace_go].
  rewrite (H EmptyString (String a s) eq_refl). f_equal. apply IH.
  intros u v ->. by apply (H (String a u) v).
Qed.

Lemma replace_go_piece c old new p t :
  (forall u v, p = u +:+ v -> v <> EmptyString ->
     startswith (v +:+ t) (String c old) = false) ->
  replace_go (String c old) new 0 (p +:+ t)
  = p +:+ replace_go (String c old) new 0 t.
Proof.
  induction p as [|a p IH]; intros H; [done|].
  assert (H0 : startswith (String a (p +:+ t)) (String c old) = false)
    by (by apply (H EmptyString (String a p))).
  rewrite !string_app_cons. cbn [replace_go]. rewrite H0. f_equal. apply IH.
  intros u v -> Hv. by apply (H (String a u) v).
Qed.

(** [replace] puts [new] where the search finds [old], and nowhere else. *)
Lemma replace_leftmost old new s ps :
  old <> EmptyString -> leftmost_split old s ps ->
  replace old new s = str_join new ps.
Proof.
  destruct old as [|c old]; [done|]. intros _ H. unfold replace. cbn [is_empty].
  induction H as [s H|p rest ps H Hs IH].
  - by apply replace_go_free.
  - rewrite replace_go_piece by done. rewrite replace_go_here, IH.
    rewrite str_join_cons; [done|]. by eapply leftmost_split_nonempty.
Qed.

Lemma first_occurrence c old s :
  (forall u v, s = u +:+ v -> startswith v (String c old) = false)
  \/ exists p rest,
       s = p +:+ String c old +:+ rest
       /\ (forall u v, p = u +:+ v -> v <> EmptyString ->
             startswith (v +:+ String c old +:+ rest) (String c old) = false).
Proof.
  induction s as [|a s IH].
  - left. intros u v E. by destruct u, v.
  - destruct (startswith (String a s) (String c old)) eqn:E.
    + right. unfold startswith in E.
      destruct (remove_prefix (String c old) (String a s)) as [rest|] eqn:Er;
        [|done].
      apply remove_prefix_Some in Er. exists EmptyString, rest.
      split; [done|]. intros u v Huv Hv. by destruct u, v.
    + destruct IH as [IH|(p & rest & -> & IH)].
      * left. intros u v [[-> ->]|(u' & -> & ->)]%eq_sym%string_app_eq_cons;
          [done | by apply (IH u' v)].
      * right. exists (String a p), rest. split; [done|].
        intros u v [[-> ->]|(u' & -> & ->)]%eq_sym%string_app_eq_cons Hv;
          [done | by apply (IH u' v)].
Qed.

(** Every text has such a cutting. *)
Lemma leftmost_split_exists old s :
  old <> EmptyString -> exists ps, leftmost_split old s ps.
Proof.
  destruct old as [|c old]; [done|]. intros _.
  assert (H : forall n s, String.length s < n ->
                exists ps, leftmost_split (String c old) s ps).
  { clear s. induction n as [|n IH]; intros s Hn; [lia|].
    destruct (first_occurrence c old s) as [Hfree|(p & rest & -> & Hp)].
    - exists [s]. by constructor.
    - destruct (IH rest) as [ps Hps].
      { rewrite !string_length_app in Hn. simpl in Hn. lia. }
      exists (p :: ps). by constructor. }
  apply (H (S (String.length s))). lia.
Qed.

Lemma occurs_in_false old s :
  occurs_in old s = false ->
  forall u v, s = u +:+ v -> startswith v old = false.
Proof.
  induction s as [|a s IH]; cbn [occurs_in];
    intros [H1 H2]%orb_false_iff u v E.
  - by destruct u, v.
  - apply eq_sym, string_app_eq_cons in E as [[-> ->]|(u' & -> & ->)];
      [done | by apply (IH H2 u' v)].
Qed.

Lemma starts_inside_false old p t :
  starts_inside old p t = false ->
  forall u v, p = u +:+ v -> v <> EmptyString -> startswith (v +:+ t) old = false.
Proof.
  induction p as [|a p IH]; cbn [starts_inside].
  - intros _ u v E. by destruct u, v.
  - intros [H1 H2]%orb_false_iff u v E Hv.
    apply eq_sym, string_app_eq_cons in E as [[-> ->]|(u' & -> & ->)];
      [done | by apply (IH H2 u' v)].
Qed.

(** C7, as amended: for every template that can be read, the report
    written (when it can be written) is the template in which every
    occurrence of the rows placeholder has been replaced by the rows, then
    every occurrence of the placeholder of the detailed rows in the result
    by the detailed rows, then every occurrence of the footer placeholder in
    that result by the footer.  With the texts cut at the occurrences of a
    placeholder into pieces, the result of a step is the pieces joined by
    the fragment: a placeholder is replaced as many times as it occurs in
    the text its step receives, once exactly when it occurs once there.
    Such a cutting exists at every step. *)
Theorem report_replaces_at_every_occurrence
    (fs : file_system) (ws : write_system)
    (results : list result) (detailed : list detail)
    (matched mismatched : nat) (template : string) :
  fs "template.html" = ReadOk template ->
  ws "comparison_report.html" = None ->
  let rows := html_rows 1 results in
  let detailed_rows := html_detailed_rows 1 detailed in
  let footer_info := html_footer matched mismatched in
  (exists ps1 ps2 ps3,
     leftmost_split ROWS template ps1
     /\ leftmost_split DETAILED_ROWS (str_join rows ps1) ps2
     /\ leftmost_split FOOTER_INFO (str_join detailed_rows ps2) ps3)
  /\ (forall ps1 ps2 ps3,
        leftmost_split ROWS template ps1 ->
        leftmost_split DETAILED_ROWS (str_join rows ps1) ps2 ->
        leftmost_split FOOTER_INFO (str_join detailed_rows ps2) ps3 ->
        generate_html_report fs ws results detailed matched mismatched
        = inr (Report (str_join footer_info ps3)
                      "HTML report generated as 'comparison_report.html'")).
Proof.
  intros Hfs Hws rows detailed_rows footer_info. split.
  - destruct (leftmost_split_exists ROWS template) as [ps1 H1]; [done|].
    destruct (leftmost_split_exists DETAILED_ROWS (str_join rows ps1))
      as [ps2 H2]; [done|].
    destruct (leftmost_split_exists FOOTER_INFO (str_join detailed_rows ps2))
      as [ps3 H3]; [done|].
    by exists ps1, ps2, ps3.
  - intros ps1 ps2 ps3 H1 H2 H3.
    unfold generate_html_report. rewrite Hfs, Hws. unfold fill_template.
    fold rows detailed_rows footer_info.
    rewrite (replace_leftmost ROWS rows template ps1) by done.
    rewrite (replace_leftmost DETAILED_ROWS detailed_rows _ ps2) by done.
    by rewrite (replace_leftmost FOOTER_INFO footer_info _ ps3).
Qed.

Lemma report_replaces_at_every_occurrence_witness :
  generate_html_report (template_fs template_rows_twice) writable
    sample_results sample_details 1 1
  = inr (Report
           (str_join (html_footer 1 1)
              [html_rows 1 sample_results +:+ "<hr>" +:+ html_rows 1 sample_results;
               EmptyString])
           "HTML report generated as 'comparison_report.html'").
Proof.
  apply (proj2 (report_replaces_at_every_occurrence
                  (template_fs template_rows_twice) writable
                  sample_results sample_details 1 1 template_rows_twice
                  eq_refl eq_refl)
           [EmptyString; "<hr>"; FOOTER_INFO]
           [html_rows 1 sample_results +:+ "<hr>" +:+ html_rows 1 sample_results
              +:+ FOOTER_INFO]
           [html_rows 1 sample_results +:+ "<hr>" +:+ html_rows 1 sample_results;
            EmptyString]).
  - apply (split_cons ROWS EmptyString ("<hr>" +:+ ROWS +:+ FOOTER_INFO)).
    { apply starts_inside_false. reflexivity. }
    apply (split_cons ROWS "<hr>" FOOTER_INFO).
    { apply starts_inside_false. reflexivity. }
    apply split_last, occurs_in_false. reflexivity.
  - apply split_last, occurs_in_false. vm_compute. reflexivity.
  - apply (split_cons FOOTER_INFO
             (html_rows 1 sample_results +:+ "<hr>" +:+ html_rows 1 sample_results)
             EmptyString).
    { apply starts_inside_false. vm_compute. reflexivity. }
    apply split_last, occurs_in_false. reflexivity.
Defined.

(** C7 as stated fails on a template that holds a placeholder twice: both
    occurrences are replaced, where one replacement would leave the second
    occurrence in place. *)
Lemma report_replaces_every_occurrence :
  generate_html_report (template_fs (ROWS +:+ "<hr>" +:+ ROWS)) writable
    sample_results [] 1 1
  = inr (Report (html_rows 1 sample_results +:+ "<hr>" +:+ html_rows 1 sample_results)
                "HTML report generated as 'comparison_report.html'")
  /\ html_rows 1 sample_results +:+ "<hr>" +:+ html_rows 1 sample_results
     <> html_rows 1 sample_results +:+ "<hr>" +:+ ROWS.
Proof. split; [by vm_compute | by vm_compute]. Qed.

(** ** The entry point *)

(** C9: with a number of command-line arguments other than two, that is,
    when [sys.argv] has not exactly three entries, the program prints the
    usage message and exits with status 1; no file has been opened and no
    report has been written. *)
Theorem main_usage_on_wrong_argument_count
    (set_order : gset string -> list string) (fs : file_system)
    (ws : write_system) (argv : list string) :
  length argv <> 3 ->
  main set_order fs ws argv
  = Outcome ["Usage: python compare.py <file1.net> <file2.net>"] [] None (Exit 1).
Proof.
  intros H. destruct argv as [|? [|? [|? [|? ?]]]]; simpl in *; done.
Qed.

Lemma main_usage_on_wrong_argument_count_witness :
  main elements sample_fs writable ["compare.py"; "a.net"]
  = Outcome ["Usage: python compare.py <file1.net> <file2.net>"] [] None (Exit 1)
  /\ main elements sample_fs writable ["compare.py"; "a.net"; "b.net"; "c.net"]
     = Outcome ["Usage: python compare.py <file1.net> <file2.net>"] [] None (Exit 1).
Proof.
  split; apply main_usage_on_wrong_argument_count; simpl; lia.
Defined.

(** With two arguments the comparison runs on them. *)
Lemma main_runs_on_two_arguments set_order fs ws script file1 file2 :
  main set_order fs ws [script; file1; file2]
  = compare_netlists set_order fs ws file1 file2.
Proof. reflexivity. Qed.

(** A missing first file: the run goes on, every net of the second file is
    reported with the code of the absent side, and the missing template of
    the sample file system ends the run with the exception. *)
Example run_with_missing_file :
  main elements sample_fs writable ["compare.py"; "gone.net"; "a.net"]
  = Outcome ["Error: File gone.net not found."]
            ["gone.net"; "a.net"; "template.html"] None
            (Uncaught FileNotFoundError)
  /\ results (compare_core elements (parse_netlist sample_fs "gone.net").1 parsed_a)
     = [Result "GND" "N/A" 0 "1" 2 true; Result "VCC" "N/A" 0 "2" 1 true].
Proof. split; vm_compute; reflexivity. Qed.

(** The scenario of the specification: GND with C1 and R1 in the first
    file, and with C1, R1 and C2 in the second. *)
Example gnd_scenario :
  detail_of parsed_a.1 parsed_b.1 "GND"
  = Detail "GND" [] 0 [format_node "C2" "1"] 1
  /\ r_is_mismatch (result_of parsed_a.1 parsed_b.1 parsed_a.2 parsed_b.2 "GND") = true.
Proof. split; vm_compute; reflexivity. Qed.

(** ** More about the patterns *)

Lemma lit_Some {B} p (k : string -> option B) s b :
  lit p k s = Some b <-> exists r, s = p +:+ r /\ k r = Some b.
Proof.
  unfold lit. destruct (remove_prefix p s) as [r|] eqn:E.
  - apply remove_prefix_Some in E as ->. split; [by exists r|].
    intros (r' & E & H). by apply (inj (String.app p)) in E as ->.
  - split; [done|]. intros (r & -> & _). by rewrite remove_prefix_app in E.
Qed.

Lemma lazy_group_inv {B} (k : string -> option B) s g b :
  lazy_group k s = Some (g, b) ->
  exists r, s = g +:+ r /\ no_newline g = true /\ k r = Some b.
Proof.
  revert g. induction s as [|c s IH]; intros g; simpl.
  - destruct (k EmptyString) eqn:E; [|done]. intros [= <- <-]. by exists EmptyString.
  - destruct (k (String c s)) eqn:E; [intros [= <- <-]; by exists (String c s)|].
    destruct (Ascii.eqb c newline) eqn:Ec; [done|].
    destruct (lazy_group k s) as [[g' b']|]; [|done].
    intros [= <- <-]. destruct (IH g' eq_refl) as (r & -> & Hg & Hk).
    exists r. split_and!; [done | | done]. simpl. by rewrite Ec.
Qed.

Lemma digits_star_inv {B} (k : string -> option B) s g b :
  digits_star k s = Some (g, b) ->
  exists r, s = g +:+ r /\ all_digits g = true /\ k r = Some b.
Proof.
  revert g. induction s as [|c s IH]; intros g; simpl.
  - destruct (k EmptyString) eqn:E; [|done]. intros [= <- <-]. by exists EmptyString.
  - assert (Hstop : match k (String c s) with
                    | Some b0 => Some (EmptyString, b0) | None => None end
                    = Some (g, b) ->
                    exists r, String c s = g +:+ r /\ all_digits g = true
                              /\ k r = Some b).
    { destruct (k (String c s)) eqn:E; [|done]. intros [= <- <-].
      by exists (String c s). }
    destruct (is_digit c) eqn:Ec; [|done].
    destruct (digits_star k s) as [[g' b']|]; [|done].
    intros [= <- <-]. destruct (IH g' eq_refl) as (r & -> & Hg & Hk).
    exists r. split_and!; [done | | done]. simpl. by rewrite Ec.
Qed.

Lemma digits_group_inv {B} (k : string -> option B) s g b :
  digits_group k s = Some (g, b) ->
  exists r, s = g +:+ r /\ all_digits g = true /\ g <> EmptyString
            /\ k r = Some b.
Proof.
  unfold digits_group. destruct s as [|c s]; [done|].
  destruct (is_digit c) eqn:Ec; [|done].
  destruct (digits_star k s) as [[g' b']|] eqn:E; [|done].
  intros [= <- <-]. destruct (digits_star_inv k s g' b' E) as (r & -> & Hg & Hk).
  exists r. split_and!; [done | | done | done]. simpl. by rewrite Ec.
Qed.

(** What a line on which the net pattern matches looks like. *)
Lemma net_re_inv line c n :
  net_re line = Some (c, n) ->
  exists rest,
    line = NET_OPEN +:+ c +:+ NET_MID +:+ n +:+ GROUP_CLOSE +:+ rest
    /\ all_digits c = true /\ c <> EmptyString /\ no_newline n = true.
Proof.
  unfold net_re.
  destruct (lit NET_OPEN _ line) as [[c' [n' u]]|] eqn:E; [|done].
  intros [= <- <-]. apply lit_Some in E as (r1 & -> & E).
  apply digits_group_inv in E as (r2 & -> & Hc & Hne & E).
  apply lit_Some in E as (r3 & -> & E).
  apply lazy_group_inv in E as (r4 & -> & Hn & E).
  apply lit_Some in E as (r5 & -> & _). by exists r5.
Qed.

(** What a line on which the node pattern matches looks like. *)
Lemma node_re_inv line ref pin :
  node_re line = Some (ref, pin) ->
  exists rest,
    line = NODE_OPEN +:+ ref +:+ NODE_MID +:+ pin +:+ GROUP_CLOSE +:+ rest
    /\ no_newline ref = true /\ no_newline pin = true.
Proof.
  unfold node_re.
  destruct (lit NODE_OPEN _ line) as [[r' [p' u]]|] eqn:E; [|done].
  intros [= <- <-]. apply lit_Some in E as (r1 & -> & E).
  apply lazy_group_inv in E as (r2 & -> & Hr & E).
  apply lit_Some in E as (r3 & -> & E).
  apply lazy_group_inv in E as (r4 & -> & Hp & E).
  apply lit_Some in E as (r5 & -> & _). by exists r5.
Qed.

Lemma lazy_group_here {B} (k : string -> option B) s b :
  k s = Some b -> lazy_group k s = Some (EmptyString, b).
Proof. intros H. destruct s; simpl; by rewrite H. Qed.

(** A group without quote and newline, followed by a literal that opens
    with a quote, is read whole. *)
Lemma lazy_group_exact {B} (k : string -> option B) g p t b :
  no_newline g = true -> no_quote g = true -> k t = Some b ->
  lazy_group (lit (String dquote p) k) (g +:+ String dquote p +:+ t) = Some (g, b).
Proof.
  intros Hn Hq Hk. induction g as [|c g IH].
  - apply lazy_group_here. unfold lit.
    change (EmptyString +:+ String dquote p +:+ t) with (String dquote p +:+ t).
    by rewrite remove_prefix_app.
  - simpl in Hn, Hq. apply andb_true_iff in Hn as [Hc Hn].
    apply andb_true_iff in Hq as [Hd Hq].
    apply negb_true_iff in Hc. apply negb_true_iff in Hd.
    rewrite string_app_cons. cbn [lazy_group].
    unfold lit at 1. cbn [remove_prefix].
    rewrite (Ascii.eqb_sym dquote c), Hd, Hc.
    by rewrite (IH Hn Hq).
Qed.

Lemma digits_star_exact {B} (k : string -> option B) g q t b :
  all_digits g = true -> is_digit q = false -> k (String q t) = Some b ->
  digits_star k (g +:+ String q t) = Some (g, b).
Proof.
  intros Hg Hq Hk. induction g as [|c g IH].
  - change (EmptyString +:+ String q t) with (String q t).
    cbn [digits_star]. by rewrite Hq, Hk.
  - simpl in Hg. apply andb_true_iff in Hg as [Hc Hg].
    rewrite string_app_cons. cbn [digits_star]. by rewrite Hc, (IH Hg).
Qed.

(** X1: a node line written with a reference designator and a pin that
    hold no quote and no newline is read back as this designator and this
    pin, whatever follows the pin on the line; in particular the canonical
    node string that the parser stores reads back as the same designator and
    pin, and [categorize_nodes] extracts the same designator from it. *)
Theorem node_line_round_trip (ref pin rest : string) :
  no_newline ref = true -> no_quote ref = true ->
  no_newline pin = true -> no_quote pin = true ->
  node_re (NODE_OPEN +:+ ref +:+ NODE_MID +:+ pin +:+ GROUP_CLOSE +:+ rest)
  = Some (ref, pin)
  /\ node_re (format_node ref pin) = Some (ref, pin)
  /\ ref_re (format_node ref pin) = Some ref.
Proof.
  intros Hrn Hrq Hpn Hpq.
  assert (Hgen : forall t,
    node_re (NODE_OPEN +:+ ref +:+ NODE_MID +:+ pin +:+ GROUP_CLOSE +:+ t)
    = Some (ref, pin)).
  { intros t. unfold node_re. unfold lit at 1. rewrite remove_prefix_app.
    change NODE_MID with (String dquote (") (pin " +:+ Q)).
    change GROUP_CLOSE with (String dquote ")").
    rewrite (lazy_group_exact _ ref (") (pin " +:+ Q)
               (pin +:+ String dquote ")" +:+ t) (pin, tt)); [done..|].
    by apply lazy_group_exact. }
  split_and!.
  - apply Hgen.
  - apply (Hgen ")").
  - unfold ref_re, format_node.
    change (NODE_OPEN +:+ ref +:+ NODE_MID +:+ pin +:+ NODE_CLOSE)
      with (String "(" (String "n" (String "o" (String "d" (String "e" (String " "
              (REF_OPEN +:+ ref +:+ String dquote ")"
                 +:+ (" (pin " +:+ Q +:+ pin +:+ NODE_CLOSE)))))))).
    do 6 (rewrite re_search_skip by reflexivity).
    rewrite (re_search_here _ _ (ref, tt)); [done|].
    unfold lit at 1. rewrite remove_prefix_app.
    by apply lazy_group_exact.
Qed.

Lemma node_line_round_trip_witness :
  node_re (NODE_OPEN +:+ "C12" +:+ NODE_MID +:+ "2" +:+ GROUP_CLOSE
           +:+ " (pintype passive))")
  = Some ("C12", "2")
  /\ node_re (format_node "C12" "2") = Some ("C12", "2")
  /\ ref_re (format_node "C12" "2") = Some "C12".
Proof.
  apply (node_line_round_trip "C12" "2" " (pintype passive))");
    reflexivity.
Defined.

(** X2: a net declaration line written with a code of one or more digits
    and a name that holds no quote and no newline is read back as this code
    and this name, whatever follows the name on the line. *)
Theorem net_line_round_trip (c n rest : string) :
  all_digits c = true -> c <> EmptyString ->
  no_newline n = true -> no_quote n = true ->
  net_re (NET_OPEN +:+ c +:+ NET_MID +:+ n +:+ GROUP_CLOSE +:+ rest)
  = Some (c, n).
Proof.
  intros Hc Hne Hn Hq. destruct c as [|d c]; [done|].
  simpl in Hc. apply andb_true_iff in Hc as [Hd Hc].
  unfold net_re. unfold lit at 1. rewrite remove_prefix_app.
  rewrite string_app_cons. unfold digits_group. rewrite Hd.
  change NET_MID with (String dquote (") (name " +:+ Q)).
  rewrite (string_app_cons dquote).
  rewrite (digits_star_exact _ c dquote _ (n, tt) Hc eq_refl); [done|].
  rewrite <- (string_app_cons dquote (") (name " +:+ Q)).
  unfold lit at 1. rewrite remove_prefix_app.
  change GROUP_CLOSE with (String dquote ")").
  by apply lazy_group_exact.
Qed.

Lemma net_line_round_trip_witness :
  net_re (NET_OPEN +:+ "42" +:+ NET_MID +:+ "Net-(U1-Pad3)" +:+ GROUP_CLOSE
          +:+ " (class Default)")
  = Some ("42", "Net-(U1-Pad3)").
Proof.
  apply (net_line_round_trip "42" "Net-(U1-Pad3)" " (class Default)");
    [reflexivity | discriminate | reflexivity | reflexivity].
Defined.

(** ** More about the loop of [parse_netlist] *)

(** A property of the state that the three kinds of state change keep is
    kept by the whole loop. *)
Lemma parse_lines_keeps (P : pstate -> Prop) :
  (forall b st, P st -> P (set_in_nets b st)) ->
  (forall c n st raw, P st -> net_re (strip raw) = Some (c, n) ->
     P (declare_net c n st)) ->
  (forall n ref pin st st' raw, P st -> node_re (strip raw) = Some (ref, pin) ->
     append_node n (format_node ref pin) st = inr st' -> P st') ->
  forall lines st, P st -> P (parse_lines st lines).1.
Proof.
  intros Hset Hdecl Hnode lines.
  induction lines as [|raw rest IH]; intros st HP; simpl; [done|].
  destruct (parse_line st raw) as [e|st'] eqn:E; [done|]. apply IH.
  revert E. unfold parse_line.
  destruct (startswith (strip raw) "(nets"); [intros [= <-]; by apply Hset|].
  destruct (startswith (strip raw) "(components");
    [intros [= <-]; by apply Hset|].
  destruct (in_nets_section st && startswith (strip raw) "(net").
  - destruct (net_re (strip raw)) as [[c n]|] eqn:Hre;
      [intros [= <-]; by apply (Hdecl c n st raw)|].
    destruct (in_nets_section st && startswith (strip raw) "(node");
      [|by intros [= <-]].
    destruct (net_name st) as [n|]; [|by intros [= <-]].
    destruct (is_empty n); [by intros [= <-]|].
    destruct (node_re (strip raw)) as [[ref pin]|] eqn:Hn; [|by intros [= <-]].
    intros E. by apply (Hnode n ref pin st st' raw).
  - destruct (in_nets_section st && startswith (strip raw) "(node");
      [|by intros [= <-]].
    destruct (net_name st) as [n|]; [|by intros [= <-]].
    destruct (is_empty n); [by intros [= <-]|].
    destruct (node_re (strip raw)) as [[ref pin]|] eqn:Hn; [|by intros [= <-]].
    intros E. by apply (Hnode n ref pin st st' raw).
Qed.

Lemma parse_netlist_keeps (P : pstate -> Prop) fs path :
  (forall b st, P st -> P (set_in_nets b st)) ->
  (forall c n st raw, P st -> net_re (strip raw) = Some (c, n) ->
     P (declare_net c n st)) ->
  (forall n ref pin st st' raw, P st -> node_re (strip raw) = Some (ref, pin) ->
     append_node n (format_node ref pin) st = inr st' -> P st') ->
  P init_pstate ->
  exists st, P st /\ (parse_netlist fs path).1 = (connections st, net_codes st).
Proof.
  intros Hset Hdecl Hnode H0. unfold parse_netlist.
  destruct (fs path) as [content| |msg]; [|by exists init_pstate..].
  pose proof (parse_lines_keeps P Hset Hdecl Hnode (readlines content)
                init_pstate H0) as H.
  destruct (parse_lines init_pstate (readlines content)) as [st r].
  by exists st.
Qed.

(** X3: the two mappings that [parse_netlist] returns have the same keys,
    and the code that the second one gives for a net is the code stored in
    the entry of the first. *)
Theorem parse_netlist_maps_agree (fs : file_system) (path : string) :
  dom (parse_netlist fs path).1.1 = dom (parse_netlist fs path).1.2
  /\ (forall n e, (parse_netlist fs path).1.1 !! n = Some e ->
        (parse_netlist fs path).1.2 !! n = Some (code e))
  /\ (forall n c, (parse_netlist fs path).1.2 !! n = Some c ->
        exists ns, (parse_netlist fs path).1.1 !! n = Some (NetEntry c ns)).
Proof.
  split_and!.
  - apply set_eq. intros n. rewrite !elem_of_dom, parse_netlist_codes.
    by rewrite fmap_is_Some.
  - intros n e H. by rewrite parse_netlist_codes, H.
  - intros n c. rewrite parse_netlist_codes.
    destruct ((parse_netlist fs path).1.1 !! n) as [[c' ns]|]; [|done].
    intros [= <-]. by exists ns.
Qed.

Lemma parse_netlist_codes_digits fs path :
  codes_are_digits (parse_netlist fs path).1.2.
Proof.
  destruct (parse_netlist_keeps (fun st => codes_are_digits (net_codes st)) fs path)
    as (st & Hst & ->); try done.
  - intros c' n' st raw Hst (rest & _ & Hc & Hne & _)%net_re_inv m c''. simpl.
    destruct (decide (n' = m)) as [->|Hm].
    + rewrite lookup_insert_eq. by intros [= <-].
    + rewrite lookup_insert_ne by done. apply Hst.
  - intros n' ref pin st st' raw Hst _. unfold append_node.
    destruct (connections st !! n'); [|done]. by intros [= <-].
Qed.

(** X4: every net code that [parse_netlist] returns is a non-empty string
    of digits; it is never the text that the comparison shows for a net that
    a file lacks. *)
Theorem parsed_codes_are_digit_strings
    (fs : file_system) (path n c : string) :
  (parse_netlist fs path).1.2 !! n = Some c ->
  all_digits c = true /\ c <> EmptyString /\ c <> "N/A".
Proof.
  intros H. destruct (parse_netlist_codes_digits fs path n c H) as [Hd Hne].
  split_and!; [done | done |]. by intros ->.
Qed.

Lemma parsed_codes_are_digit_strings_witness :
  all_digits "3" = true /\ "3" <> EmptyString /\ "3" <> "N/A".
Proof.
  apply (parsed_codes_are_digit_strings sample_fs "b.net" "SIG" "3").
  vm_compute. reflexivity.
Defined.

(** X5: every node string that [parse_netlist] stores is the canonical
    text of a reference designator and a pin, none of which holds a newline:
    what follows the pin on a node line is not kept. *)
Theorem parsed_nodes_are_canonical
    (fs : file_system) (path n : string) (e : net_entry) :
  (parse_netlist fs path).1.1 !! n = Some e ->
  Forall canonical_node (nodes e).
Proof.
  destruct (parse_netlist_keeps (fun st => nodes_canonical (connections st)) fs path)
    as (st & Hst & ->); try done.
  - intros c' n' st raw Hst _ m e'. simpl.
    destruct (decide (n' = m)) as [->|Hm].
    + rewrite lookup_insert_eq. intros [= <-]. constructor.
    + rewrite lookup_insert_ne by done. apply Hst.
  - intros n' ref pin st st' raw Hst (rest & _ & Hr & Hp)%node_re_inv.
    unfold append_node. destruct (connections st !! n') as [e0|] eqn:E0; [|done].
    intros [= <-] m e'. simpl. destruct (decide (n' = m)) as [->|Hm].
    + rewrite lookup_insert_eq. intros [= <-]. simpl. apply Forall_app.
      split; [by apply (Hst m e0)|]. constructor; [|constructor].
      by exists ref, pin.
    + rewrite lookup_insert_ne by done. apply Hst.
  - simpl. apply Hst.
Qed.

Lemma parsed_nodes_are_canonical_witness :
  Forall canonical_node [format_node "C1" "1"; format_node "R1" "2"].
Proof.
  apply (parsed_nodes_are_canonical sample_fs "a.net" "GND"
           (NetEntry "1" [format_node "C1" "1"; format_node "R1" "2"])).
  vm_compute. reflexivity.
Defined.

Lemma set_in_nets_same st : set_in_nets (in_nets_section st) st = st.
Proof. by destruct st. Qed.

Lemma parse_line_outside st raw :
  in_nets_section st = false -> opens_nets raw = false ->
  parse_line st raw = inr st.
Proof.
  intros Hin Hn. unfold parse_line. unfold opens_nets in Hn. rewrite Hn, Hin.
  destruct (startswith (strip raw) "(components"); [|done].
  by rewrite <- Hin at 1; rewrite set_in_nets_same.
Qed.

Lemma parse_lines_outside lines : forall st,
  in_nets_section st = false -> Forall (fun raw => opens_nets raw = false) lines ->
  parse_lines st lines = (st, None).
Proof.
  induction lines as [|raw rest IH]; intros st Hin Hall; simpl; [done|].
  apply Forall_cons in Hall as [H1 H2].
  rewrite (parse_line_outside st raw Hin H1). by apply IH.
Qed.

(** X6: outside the nets section every line is ignored: once the lines
    [pre] of a readable file have left the loop outside the section, and no
    later line opens the section, the mappings returned are those built
    from [pre], and nothing is printed.  With [pre] empty: a file without a
    line that opens the nets section gives two empty mappings. *)
Theorem lines_outside_nets_section_are_ignored
    (fs : file_system) (path content : string) (pre post : list string) :
  fs path = ReadOk content ->
  readlines content = pre ++ post ->
  in_nets_section (parse_lines init_pstate pre).1 = false ->
  Forall (fun raw => opens_nets raw = false) post ->
  parse_netlist fs path
  = ((connections (parse_lines init_pstate pre).1,
      net_codes (parse_lines init_pstate pre).1), []).
Proof.
  intros Hfs Hlines Hin Hall.
  destruct (parse_lines_ok init_pstate pre (pinv_init false)) as [Hr _].
  rewrite (parse_netlist_ok fs path content Hfs), Hlines.
  rewrite (parse_lines_app _ _ _ Hr).
  by rewrite (parse_lines_outside post _ Hin Hall).
Qed.

Lemma lines_outside_nets_section_are_ignored_witness :
  parse_netlist more_fs "nosection.net" = ((∅, ∅), []).
Proof.
  apply (lines_outside_nets_section_are_ignored more_fs "nosection.net"
           netlist_no_section [] (readlines netlist_no_section)
           eq_refl eq_refl eq_refl).
  vm_compute. repeat constructor.
Defined.

(** [strip] gives a text that it leaves as it is. *)
Lemma rstrip_idemp s : rstrip (rstrip s) = rstrip s.
Proof.
  induction s as [|c s IH]; [done|]. cbn [rstrip].
  destruct (is_space c && is_empty (rstrip s)) eqn:E; [done|].
  cbn [rstrip]. by rewrite IH, E.
Qed.

Lemma lstrip_head s :
  lstrip s = EmptyString
  \/ exists c t, lstrip s = String c t /\ is_space c = false.
Proof.
  induction s as [|c s IH]; [by left|]. simpl.
  destruct (is_space c) eqn:E; [done|]. right. by exists c, s.
Qed.

Lemma strip_idemp s : strip (strip s) = strip s.
Proof.
  unfold strip. destruct (lstrip_head s) as [->|(c & t & -> & Hc)]; [done|].
  cbn [rstrip]. rewrite Hc. cbn [andb lstrip]. rewrite Hc.
  cbn [rstrip]. rewrite Hc. cbn [andb]. by rewrite rstrip_idemp.
Qed.

Lemma parse_line_unrecognised st raw :
  unrecognised raw = true -> parse_line st raw = inr st.
Proof.
  unfold unrecognised, opens_nets, opens_components.
  intros [[[H1 H2]%andb_true_iff H3%bool_decide_eq_true]%andb_true_iff
            H4%bool_decide_eq_true]%andb_true_iff.
  apply negb_true_iff in H1, H2. unfold parse_line.
  rewrite H1, H2, H3, H4.
  destruct (in_nets_section st && startswith (strip raw) "(net");
    destruct (in_nets_section st && startswith (strip raw) "(node"); try done;
    destruct (net_name st) as [n|]; try done; by destruct (is_empty n).
Qed.

(** X7: the loop looks at a line only after stripping it, and it ignores
    every line that is no section marker and on which neither the net
    pattern nor the node pattern matches (a blank line, another tag, a net
    declaration whose code is not made of digits): such lines can be taken
    out of a file, and every line can be stripped, without changing what the
    loop builds. *)
Theorem unrecognised_lines_and_indentation_do_not_matter
    (st : pstate) (lines : list string) :
  parse_lines st (filter (fun raw => unrecognised raw = false) lines)
  = parse_lines st lines
  /\ parse_lines st (strip <$> lines) = parse_lines st lines.
Proof.
  split.
  - revert st. induction lines as [|raw rest IH]; intros st; [done|].
    rewrite filter_cons. destruct (unrecognised raw) eqn:E.
    + rewrite decide_False by done. simpl.
      rewrite (parse_line_unrecognised st raw E). apply IH.
    + rewrite decide_True by done. simpl.
      destruct (parse_line st raw); [done | apply IH].
  - revert st. induction lines as [|raw rest IH]; intros st; [done|].
    rewrite fmap_cons. simpl.
    assert (parse_line st (strip raw) = parse_line st raw) as ->.
    { unfold parse_line. by rewrite strip_idemp. }
    destruct (parse_line st raw); [done | apply IH].
Qed.

(** A declaration that the pattern refuses leaves the previous net
    current: the node lines that follow it go to that net. *)
Example refused_declaration_keeps_previous_net :
  connections (parse_lines init_pstate netlist_bad_code).1
  = {[ "GND" := NetEntry "1" [format_node "C1" "1"; format_node "U1" "8"] ]}.
Proof. vm_compute. reflexivity. Qed.

(** X8: for two parsed files, the row of a net shows the code ["N/A"] for
    a side exactly when the file of that side has no such net. *)
Theorem code_na_means_absent
    (fs : file_system) (file1 file2 name : string) :
  let p1 := (parse_netlist fs file1).1 in
  let p2 := (parse_netlist fs file2).1 in
  let r := result_of p1.1 p2.1 p1.2 p2.2 name in
  (r_net_code1 r = "N/A" <-> p1.1 !! name = None)
  /\ (r_net_code2 r = "N/A" <-> p2.1 !! name = None).
Proof.
  assert (H : forall path,
    get_code (parse_netlist fs path).1.2 name = "N/A"
    <-> (parse_netlist fs path).1.1 !! name = None).
  { intros path. unfold get_code.
    destruct ((parse_netlist fs path).1.2 !! name) as [c|] eqn:E.
    - rewrite parse_netlist_codes in E. simpl.
      destruct ((parse_netlist fs path).1.1 !! name) as [e|] eqn:E1; [|done].
      simpl in E. injection E as <-. split; [|done]. intros Hc.
      assert (Hd : (parse_netlist fs path).1.2 !! name = Some (code e))
        by (by rewrite parse_netlist_codes, E1).
      destruct (parse_netlist_codes_digits fs path name _ Hd) as [Hdig _].
      by rewrite Hc in Hdig.
    - rewrite parse_netlist_codes in E. simpl.
      by destruct ((parse_netlist fs path).1.1 !! name). }
  intros p1 p2 r. split; apply H.
Qed.

(** ** More about [categorize_nodes] *)

Lemma categorize_foldl nodes : forall acc,
  foldl categorize_node acc nodes = add_categories acc (categorize_nodes nodes).
Proof.
  unfold categorize_nodes.
  induction nodes as [|node nodes IH] using rev_ind; intros acc.
  - destruct acc. unfold add_categories. simpl. by rewrite !Nat.add_0_r.
  - rewrite !foldl_app. simpl. rewrite IH. unfold categorize_node.
    destruct (ref_re node) as [ref|]; [|done].
    destruct (category_of_ref ref); unfold add_categories; simpl; f_equal; lia.
Qed.

(** X9: the counts of a list of nodes followed by another are the sums of
    the counts of the two lists, and the three counts of a list never add
    up to more than its length. *)
Theorem categorize_nodes_adds_up (l1 l2 : list string) :
  categorize_nodes (l1 ++ l2)
  = add_categories (categorize_nodes l1) (categorize_nodes l2)
  /\ total_categorized (categorize_nodes l1) <= length l1.
Proof.
  split.
  - unfold categorize_nodes at 1. rewrite foldl_app. apply categorize_foldl.
  - induction l1 as [|node l IH] using rev_ind; [done|].
    rewrite categorize_nodes_snoc, length_app. simpl.
    unfold categorize_node, total_categorized in *.
    destruct (ref_re node) as [ref|]; [|lia].
    destruct (category_of_ref ref); simpl; lia.
Qed.

Lemma unique_nodes_Forall (P : string -> Prop) mine theirs :
  Forall P mine -> Forall P (unique_nodes mine theirs).
Proof.
  rewrite !Forall_forall. intros H x [Hx _]%elem_of_unique_nodes. by apply H.
Qed.

Lemma get_nodes_have_ref fs path name :
  Forall (fun node => is_Some (ref_re node))
    (get_nodes (parse_netlist fs path).1.1 name).
Proof.
  unfold get_nodes.
  destruct ((parse_netlist fs path).1.1 !! name) as [e|] eqn:E; [|constructor].
  by apply (parse_netlist_nodes_have_ref fs path name).
Qed.

(** X10: in every detailed entry of the comparison of two parsed files,
    the capacitors, resistors and others counted for a side add up to the
    number of unique nodes of that side: the three totals of the report add
    up to its total of nodes. *)
Theorem detailed_totals_add_up
    (set_order : gset string -> list string)
    (fs : file_system) (file1 file2 : string) :
  Forall (fun d =>
            total_categorized (categorize_nodes (d_unique_nodes1 d)) = d_count1 d
            /\ total_categorized (categorize_nodes (d_unique_nodes2 d)) = d_count2 d)
    (detailed_mismatches
       (compare_core set_order (parse_netlist fs file1).1 (parse_netlist fs file2).1)).
Proof.
  destruct (parse_netlist fs file1).1 as [n1 c1] eqn:E1.
  destruct (parse_netlist fs file2).1 as [n2 c2] eqn:E2.
  rewrite compare_core_spec. simpl. apply Forall_fmap, Forall_forall.
  intros name _. simpl. unfold total_categorized.
  assert (H1 : n1 = (parse_netlist fs file1).1.1) by (by rewrite E1).
  assert (H2 : n2 = (parse_netlist fs file2).1.1) by (by rewrite E2).
  split; apply categorize_nodes_counts_all, unique_nodes_Forall;
    rewrite ?H1, ?H2; apply get_nodes_have_ref.
Qed.

(** ** More about the comparison *)

Lemma unique_nodes_nil mine theirs :
  (forall x, x ∈ mine -> x ∈ theirs) -> unique_nodes mine theirs = [].
Proof.
  intros H. unfold unique_nodes. induction mine as [|x l IH]; [done|].
  rewrite filter_cons, decide_False.
  - apply IH. intros y Hy. apply H. by right.
  - intros Hx. apply Hx, H. by left.
Qed.

(** X11: when the two files give a net the same set of node strings,
    whatever their order and however often each occurs, no node is unique to
    a side and the net is not flagged. *)
Theorem same_node_set_is_not_flagged
    (netlist1 netlist2 : gmap string net_entry)
    (net_codes1 net_codes2 : gmap string string) (name : string) :
  (forall x, x ∈ get_nodes netlist1 name <-> x ∈ get_nodes netlist2 name) ->
  detail_of netlist1 netlist2 name = Detail name [] 0 [] 0
  /\ r_is_mismatch (result_of netlist1 netlist2 net_codes1 net_codes2 name) = false.
Proof.
  intros H. unfold detail_of, result_of, count_mismatch. simpl.
  rewrite !unique_nodes_nil; [done | intros x; apply H..].
Qed.

Lemma same_node_set_is_not_flagged_witness :
  detail_of same_set_1 same_set_2 "N" = Detail "N" [] 0 [] 0
  /\ r_is_mismatch (result_of same_set_1 same_set_2 ∅ ∅ "N") = false.
Proof.
  apply (same_node_set_is_not_flagged same_set_1 same_set_2 ∅ ∅ "N").
  assert (get_nodes same_set_1 "N"
          = [format_node "R1" "1"; format_node "C1" "2"; format_node "R1" "1"])
    as -> by (vm_compute; reflexivity).
  assert (get_nodes same_set_2 "N"
          = [format_node "C1" "2"; format_node "R1" "1"])
    as -> by (vm_compute; reflexivity).
  intros x. rewrite !elem_of_cons. rewrite !elem_of_nil. tauto.
Defined.

(** X12: a flagged net really differs: some node string is in the node
    list of one file and not in the node list of the other. *)
Theorem flagged_net_has_a_one_sided_node
    (netlist1 netlist2 : gmap string net_entry)
    (net_codes1 net_codes2 : gmap string string) (name : string) :
  r_is_mismatch (result_of netlist1 netlist2 net_codes1 net_codes2 name) = true ->
  exists x,
    (x ∈ get_nodes netlist1 name /\ x ∉ get_nodes netlist2 name)
    \/ (x ∈ get_nodes netlist2 name /\ x ∉ get_nodes netlist1 name).
Proof.
  simpl. rewrite count_mismatch_true. intros H.
  destruct (unique_nodes (get_nodes netlist1 name) (get_nodes netlist2 name))
    as [|x l] eqn:E1.
  - destruct (unique_nodes (get_nodes netlist2 name) (get_nodes netlist1 name))
      as [|x l] eqn:E2; [done|].
    exists x. right. apply elem_of_unique_nodes. rewrite E2. by left.
  - exists x. left. apply elem_of_unique_nodes. rewrite E1. by left.
Qed.

Lemma flagged_net_has_a_one_sided_node_witness :
  exists x,
    (x ∈ get_nodes parsed_a.1 "GND" /\ x ∉ get_nodes parsed_b.1 "GND")
    \/ (x ∈ get_nodes parsed_b.1 "GND" /\ x ∉ get_nodes parsed_a.1 "GND").
Proof.
  apply (flagged_net_has_a_one_sided_node parsed_a.1 parsed_b.1
           parsed_a.2 parsed_b.2 "GND").
  vm_compute. reflexivity.
Defined.

Lemma count_mismatch_sym nodes1 nodes2 :
  count_mismatch nodes2 nodes1 = count_mismatch nodes1 nodes2.
Proof. unfold count_mismatch. by rewrite Nat.eqb_sym. Qed.

Lemma filter_flagged_sym netlist1 netlist2 (l : list string) :
  filter (flagged netlist2 netlist1) l = filter (flagged netlist1 netlist2) l.
Proof.
  induction l as [|n l IH]; [done|]. rewrite !filter_cons, IH.
  destruct (decide (flagged netlist1 netlist2 n)) as [F|F];
    unfold flagged in F; rewrite <- count_mismatch_sym in F.
  - by rewrite decide_True.
  - by rewrite decide_False.
Qed.

Lemma filter_not_flagged_sym netlist1 netlist2 (l : list string) :
  filter (fun n => ~ flagged netlist2 netlist1 n) l
  = filter (fun n => ~ flagged netlist1 netlist2 n) l.
Proof.
  induction l as [|n l IH]; [done|]. rewrite !filter_cons, IH.
  destruct (decide (~ flagged netlist1 netlist2 n)) as [F|F];
    unfold flagged in F; rewrite <- count_mismatch_sym in F.
  - by rewrite decide_True.
  - by rewrite decide_False.
Qed.

(** X13: exchanging the two files exchanges the two sides of every row
    and of every detailed entry and changes nothing else: whatever the
    orders in which the two runs go through the set of net names, the two
    counters are the same, and the detailed entries and the rows of the
    exchanged run are those of the first run with their sides exchanged, up
    to their order. *)
Theorem exchanging_the_files_exchanges_the_sides
    (order1 order2 : gset string -> list string)
    (netlist1 netlist2 : gmap string net_entry)
    (net_codes1 net_codes2 : gmap string string) :
  (forall X, order1 X ≡ₚ elements X) ->
  (forall X, order2 X ≡ₚ elements X) ->
  let acc := compare_core order1 (netlist1, net_codes1) (netlist2, net_codes2) in
  let acc' := compare_core order2 (netlist2, net_codes2) (netlist1, net_codes1) in
  matched_count acc' = matched_count acc
  /\ mismatched_count acc' = mismatched_count acc
  /\ detailed_mismatches acc' ≡ₚ swap_detail <$> detailed_mismatches acc
  /\ results acc' ≡ₚ swap_result <$> results acc.
Proof.
  intros H1 H2 acc acc'. subst acc acc'. rewrite !compare_core_spec. simpl.
  rewrite (union_comm_L (dom netlist2) (dom netlist1)).
  set (X := dom netlist1 ∪ dom netlist2).
  assert (H21 : order2 X ≡ₚ order1 X) by (by rewrite H1, H2).
  rewrite filter_flagged_sym, filter_not_flagged_sym.
  split_and!.
  - by rewrite H21.
  - by rewrite H21.
  - rewrite H21, <- list_fmap_compose.
    assert (E : detail_of netlist2 netlist1 <$> filter (flagged netlist1 netlist2) (order1 X)
                = (swap_detail ∘ detail_of netlist1 netlist2)
                    <$> filter (flagged netlist1 netlist2) (order1 X))
      by (by apply list_fmap_ext).
    by rewrite E.
  - rewrite !py_sort_perm, H21, <- list_fmap_compose.
    assert (E : result_of netlist2 netlist1 net_codes2 net_codes1 <$> order1 X
                = (swap_result ∘ result_of netlist1 netlist2 net_codes1 net_codes2)
                    <$> order1 X).
    { apply list_fmap_ext. intros i n _. simpl.
      unfold result_of, swap_result. simpl. by rewrite count_mismatch_sym. }
    by rewrite E.
Qed.

Lemma exchanging_the_files_exchanges_the_sides_witness :
  let acc := compare_core elements (parsed_a.1, parsed_a.2) (parsed_b.1, parsed_b.2) in
  let acc' := compare_core (fun X => reverse (elements X))
                (parsed_b.1, parsed_b.2) (parsed_a.1, parsed_a.2) in
  matched_count acc' = matched_count acc
  /\ mismatched_count acc' = mismatched_count acc
  /\ detailed_mismatches acc' ≡ₚ swap_detail <$> detailed_mismatches acc
  /\ results acc' ≡ₚ swap_result <$> results acc.
Proof.
  apply (exchanging_the_files_exchanges_the_sides
           elements (fun X => reverse (elements X))
           parsed_a.1 parsed_b.1 parsed_a.2 parsed_b.2
           elements_order (fun X => reverse_Permutation (elements X))).
Defined.

Lemma key_lt_irrefl k : key_lt k k = false.
Proof.
  unfold key_lt. rewrite Bool.eqb_reflx, string_ltb_leb.
  apply negb_false_iff, Is_true_true. apply (reflexivity (R := String.le)).
Qed.

Lemma sort_insert_filter k x l :
  filter (fun y => sort_key y = k) (sort_insert x l)
  = filter (fun y => sort_key y = k) (x :: l).
Proof.
  induction l as [|y l IH]; [done|]. simpl.
  destruct (key_lt (sort_key y) (sort_key x)) eqn:E; [|done].
  rewrite (filter_cons _ y), IH, !filter_cons.
  destruct (decide (sort_key y = k)) as [Hy|Hy]; [|done].
  destruct (decide (sort_key x = k)) as [Hx|Hx]; [|done].
  rewrite Hy, Hx, key_lt_irrefl in E. done.
Qed.

(** X14: the sort is stable: the rows that have a given sort key come out
    in the order in which they went in. *)
Theorem py_sort_is_stable (l : list result) (k : bool * string) :
  filter (fun x => sort_key x = k) (py_sort l)
  = filter (fun x => sort_key x = k) l.
Proof.
  induction l as [|x l IH]; [done|]. simpl.
  by rewrite sort_insert_filter, !filter_cons, IH.
Qed.

Lemma key_le_antisym k1 k2 :
  key_le k1 k2 = true -> key_le k2 k1 = true -> k1 = k2.
Proof.
  destruct k1 as [b1 s1], k2 as [b2 s2]. rewrite !key_le_spec.
  intros [[-> ->]|[-> H1]] [[??]|[? H2]]; try congruence.
  f_equal. by apply (anti_symm String.le).
Qed.

Lemma NoDup_fmap_eq {A B} (f : A -> B) (l : list A) x y :
  NoDup (f <$> l) -> x ∈ l -> y ∈ l -> f x = f y -> x = y.
Proof.
  induction l as [|z l IH]; [by intros _ ?%elem_of_nil|].
  rewrite fmap_cons, NoDup_cons.
  intros [Hz Hl] [->|Hx]%elem_of_cons [->|Hy]%elem_of_cons E; try done.
  - exfalso. apply Hz. rewrite E. by apply list_elem_of_fmap_2.
  - exfalso. apply Hz. rewrite <- E. by apply list_elem_of_fmap_2.
  - by apply IH.
Qed.

(** X15: the order in which the set of net names is gone through does not
    change the two counters, and it changes the detailed entries only in
    their order; when no two nets have the same sort key (same flag and same
    first code), it does not change the sorted rows either. *)
Theorem results_do_not_depend_on_set_order
    (order1 order2 : gset string -> list string)
    (netlist1 netlist2 : gmap string net_entry)
    (net_codes1 net_codes2 : gmap string string) :
  (forall X, order1 X ≡ₚ elements X) ->
  (forall X, order2 X ≡ₚ elements X) ->
  let acc1 := compare_core order1 (netlist1, net_codes1) (netlist2, net_codes2) in
  let acc2 := compare_core order2 (netlist1, net_codes1) (netlist2, net_codes2) in
  matched_count acc1 = matched_count acc2
  /\ mismatched_count acc1 = mismatched_count acc2
  /\ detailed_mismatches acc1 ≡ₚ detailed_mismatches acc2
  /\ results acc1 ≡ₚ results acc2
  /\ (NoDup (sort_key <$> (result_of netlist1 netlist2 net_codes1 net_codes2
                             <$> elements (dom netlist1 ∪ dom netlist2))) ->
      results acc1 = results acc2).
Proof.
  intros H1 H2 acc1 acc2. subst acc1 acc2. rewrite !compare_core_spec. simpl.
  set (X := dom netlist1 ∪ dom netlist2).
  assert (H12 : order1 X ≡ₚ order2 X) by (by rewrite H1, H2).
  split_and!.
  - by rewrite H12.
  - by rewrite H12.
  - by rewrite H12.
  - by rewrite !py_sort_perm, H12.
  - intros Hnd. apply (StronglySorted_unique_strong result_le);
      [|apply py_sort_sorted..|by rewrite !py_sort_perm, H12].
    intros x1 x2. rewrite !py_sort_perm, H1, H2. intros Hx1 Hx2 L1 L2.
    apply (NoDup_fmap_eq sort_key _ x1 x2 Hnd Hx1 Hx2).
    by apply key_le_antisym.
Qed.

Lemma results_do_not_depend_on_set_order_witness :
  let acc1 := compare_core elements (parsed_a.1, parsed_a.2) (parsed_b.1, parsed_b.2) in
  let acc2 := compare_core (fun X => reverse (elements X))
                (parsed_a.1, parsed_a.2) (parsed_b.1, parsed_b.2) in
  matched_count acc1 = matched_count acc2
  /\ mismatched_count acc1 = mismatched_count acc2
  /\ detailed_mismatches acc1 ≡ₚ detailed_mismatches acc2
  /\ results acc1 ≡ₚ results acc2
  /\ results acc1 = results acc2.
Proof.
  pose proof (results_do_not_depend_on_set_order
                elements (fun X => reverse (elements X))
                parsed_a.1 parsed_b.1 parsed_a.2 parsed_b.2
                elements_order (fun X => reverse_Permutation (elements X)))
    as (Ha & Hb & Hc & Hd & He).
  split_and!; [exact Ha | exact Hb | exact Hc | exact Hd |].
  apply He. apply (bool_decide_unpack _). vm_compute. exact I.
Defined.

(** ** More about the run *)

Lemma parse_netlist_unreadable fs path :
  (forall content, fs path <> ReadOk content) ->
  (parse_netlist fs path).1 = (∅, ∅) /\ length (parse_netlist fs path).2 = 1.
Proof.
  intros H. unfold parse_netlist.
  destruct (fs path) as [content| |msg]; [by destruct (H content) | done..].
Qed.

(** X16: when neither file can be read, the comparison has no row, no
    detailed entry and two counters at zero; with a template that can be
    read and a report that can be written, the run prints the two error
    lines and the confirmation, writes the template filled with two empty
    fragments and the footer of the zero counts, and exits with status 0. *)
Theorem unreadable_files_give_an_empty_report
    (set_order : gset string -> list string) (fs : file_system)
    (ws : write_system) (file1 file2 template : string) :
  (forall X, set_order X ≡ₚ elements X) ->
  (forall content, fs file1 <> ReadOk content) ->
  (forall content, fs file2 <> ReadOk content) ->
  fs "template.html" = ReadOk template ->
  ws "comparison_report.html" = None ->
  compare_core set_order (parse_netlist fs file1).1 (parse_netlist fs file2).1
  = CmpState [] [] 0 0
  /\ compare_netlists set_order fs ws file1 file2
     = Outcome ((parse_netlist fs file1).2 ++ (parse_netlist fs file2).2
                  ++ ["HTML report generated as 'comparison_report.html'"])
               [file1; file2; "template.html"]
               (Some (fill_template template EmptyString EmptyString
                        (html_footer 0 0)))
               (Exit 0)
  /\ length (stdout (compare_netlists set_order fs ws file1 file2)) = 3.
Proof.
  intros Hperm H1 H2 Ht Hw.
  destruct (parse_netlist_unreadable fs file1 H1) as [E1 L1].
  destruct (parse_netlist_unreadable fs file2 H2) as [E2 L2].
  assert (Hempty : set_order (dom (∅ : gmap string net_entry)
                               ∪ dom (∅ : gmap string net_entry)) = []).
  { apply Permutation_nil_r. rewrite Hperm, dom_empty_L, union_empty_l_L.
    by rewrite elements_empty. }
  assert (Hcore : compare_core set_order (∅, ∅) (∅, ∅) = CmpState [] [] 0 0).
  { rewrite compare_core_spec. simpl. by rewrite Hempty. }
  assert (Hrun : compare_netlists set_order fs ws file1 file2
     = Outcome ((parse_netlist fs file1).2 ++ (parse_netlist fs file2).2
                  ++ ["HTML report generated as 'comparison_report.html'"])
               [file1; file2; "template.html"]
               (Some (fill_template template EmptyString EmptyString
                        (html_footer 0 0)))
               (Exit 0)).
  { unfold compare_netlists.
    destruct (parse_netlist fs file1) as [p1 out1].
    destruct (parse_netlist fs file2) as [p2 out2].
    simpl in E1, E2. subst p1 p2. rewrite Hcore. simpl.
    unfold generate_html_report. by rewrite Ht, Hw. }
  split_and!.
  - by rewrite E1, E2.
  - done.
  - rewrite Hrun. simpl. rewrite !length_app, L1, L2. done.
Qed.

Lemma unreadable_files_give_an_empty_report_witness :
  compare_netlists elements (template_fs sample_template) writable
    "gone.net" "locked.net"
  = Outcome ((parse_netlist (template_fs sample_template) "gone.net").2
               ++ (parse_netlist (template_fs sample_template) "locked.net").2
               ++ ["HTML report generated as 'comparison_report.html'"])
            ["gone.net"; "locked.net"; "template.html"]
            (Some (fill_template sample_template EmptyString EmptyString
                     (html_footer 0 0)))
            (Exit 0).
Proof.
  apply (unreadable_files_give_an_empty_report elements
           (template_fs sample_template) writable "gone.net" "locked.net"
           sample_template elements_order).
  - intros content. vm_compute. discriminate.
  - intros content. vm_compute. discriminate.
  - reflexivity.
  - reflexivity.
Defined.

(** X17: how a run of the comparison ends depends on the template and on
    the report file alone: it exits with status 0 and leaves a report
    exactly when the template can be read and the report can be written,
    whether or not the two netlist files can be read.  When the template
    can be read and writing the report raises an exception, the run ends
    with this exception, without a report and without the confirmation.
    The run opens the two files and then the template in every case, and
    the lines that the parser printed are on the output in every case. *)
Theorem run_ends_well_iff_template_is_read
    (set_order : gset string -> list string) (fs : file_system)
    (ws : write_system) (file1 file2 : string) :
  let out := compare_netlists set_order fs ws file1 file2 in
  (ending out = Exit 0
   <-> (exists t, fs "template.html" = ReadOk t)
       /\ ws "comparison_report.html" = None)
  /\ (is_Some (report_written out)
      <-> (exists t, fs "template.html" = ReadOk t)
          /\ ws "comparison_report.html" = None)
  /\ (forall t e, fs "template.html" = ReadOk t ->
        ws "comparison_report.html" = Some e ->
        out = Outcome ((parse_netlist fs file1).2 ++ (parse_netlist fs file2).2)
                      [file1; file2; "template.html"] None (Uncaught e))
  /\ opened out = [file1; file2; "template.html"]
  /\ exists rest,
       stdout out = (parse_netlist fs file1).2 ++ (parse_netlist fs file2).2 ++ rest.
Proof.
  unfold compare_netlists.
  destruct (parse_netlist fs file1) as [p1 out1].
  destruct (parse_netlist fs file2) as [p2 out2].
  unfold generate_html_report.
  destruct (fs "template.html") as [t| |msg];
    [destruct (ws "comparison_report.html") as [e|]|..]; simpl.
  - split_and!; [split; [done | by intros [_ ?]]
                | split; [by intros [? ?] | by intros [_ ?]]
                | by intros ?? _ [= <-] | done | exists []; by rewrite app_nil_r].
  - split_and!; [split; eauto | split; eauto | done | done | by eexists].
  - split_and!; [split; [done | by intros [[t ?] _]]
                | split; [by intros [? ?] | by intros [[t ?] _]]
                | done | done | exists []; by rewrite app_nil_r].
  - split_and!; [split; [done | by intros [[t ?] _]]
                | split; [by intros [? ?] | by intros [[t ?] _]]
                | done | done | exists []; by rewrite app_nil_r].
Qed.

(** X18: a template in which no two opening braces follow each other has
    no placeholder: the report written, when it can be written, is the
    template itself. *)
Theorem template_without_placeholder_is_copied
    (fs : file_system) (ws : write_system)
    (results : list result) (detailed : list detail)
    (matched mismatched : nat) (template : string) :
  fs "template.html" = ReadOk template ->
  ws "comparison_report.html" = None ->
  no_open template = true ->
  generate_html_report fs ws results detailed matched mismatched
  = inr (Report template "HTML report generated as 'comparison_report.html'").
Proof.
  intros Hfs Hws Hno. unfold generate_html_report. rewrite Hfs, Hws.
  unfold fill_template.
  rewrite !replace_placeholder
    by auto using placeholder_ROWS, placeholder_DETAILED_ROWS, placeholder_FOOTER_INFO.
  rewrite (replace_go_last ROWS) by auto using placeholder_ROWS.
  rewrite (replace_go_last DETAILED_ROWS) by auto using placeholder_DETAILED_ROWS.
  by rewrite (replace_go_last FOOTER_INFO) by auto using placeholder_FOOTER_INFO.
Qed.

Lemma template_without_placeholder_is_copied_witness :
  generate_html_report (template_fs "<p>{ rows } and {footer}</p>") writable
    sample_results sample_details 1 1
  = inr (Report "<p>{ rows } and {footer}</p>"
                "HTML report generated as 'comparison_report.html'").
Proof.
  apply (template_without_placeholder_is_copied
           (template_fs "<p>{ rows } and {footer}</p>") writable
           sample_results sample_details 1 1 "<p>{ rows } and {footer}</p>");
    reflexivity.
Defined.

(** A report file that cannot be written ends the run after the
    comparison, with the exception. *)
Example run_with_read_only_report :
  compare_netlists elements (template_fs sample_template) read_only "a.net" "b.net"
  = Outcome [] ["a.net"; "b.net"; "template.html"] None
      (Uncaught (OtherError "[Errno 13] Permission denied: 'comparison_report.html'")).
Proof. vm_compute. reflexivity. Qed.

Lemma append_node_dom n node st st' :
  append_node n node st = inr st' ->
  dom (connections st') = dom (connections st)
  /\ in_nets_section st' = in_nets_section st.
Proof.
  unfold append_node. destruct (connections st !! n) as [e|] eqn:E; [|done].
  intros [= <-]. simpl. split; [|done]. rewrite dom_insert_L.
  apply elem_of_dom_2 in E. set_solver.
Qed.

Lemma parse_line_dom st raw st' :
  parse_line st raw = inr st' ->
  if opens_nets raw then
    in_nets_section st' = true /\ dom (connections st') = dom (connections st)
  else if opens_components raw then
    in_nets_section st' = false /\ dom (connections st') = dom (connections st)
  else
    in_nets_section st' = in_nets_section st
    /\ dom (connections st')
       = match (if in_nets_section st then net_re (strip raw) else None) with
         | Some (_, n) => {[n]} ∪ dom (connections st)
         | None => dom (connections st)
         end.
Proof.
  unfold parse_line, opens_nets, opens_components.
  destruct (startswith (strip raw) "(nets"); [by intros [= <-]|].
  destruct (startswith (strip raw) "(components"); [by intros [= <-]|].
  destruct (in_nets_section st) eqn:Hin; simpl.
  - destruct (net_re (strip raw)) as [[c n]|] eqn:Hre.
    + destruct (net_re_shape _ _ _ Hre) as (_ & _ & ->).
      intros [= <-]. simpl. by rewrite dom_insert_L.
    + assert (Hnone : (if startswith (strip raw) "(net"
                       then @None (string * string) else None) = None)
        by (by destruct (startswith (strip raw) "(net")).
      rewrite Hnone.
      destruct (startswith (strip raw) "(node"); [|by intros [= <-]].
      destruct (net_name st) as [n|]; [|by intros [= <-]].
      destruct (is_empty n); [by intros [= <-]|].
      destruct (node_re (strip raw)) as [[ref pin]|]; [|by intros [= <-]].
      intros E. destruct (append_node_dom _ _ _ _ E) as [-> ->]. done.
  - by intros [= <-].
Qed.

(** X19: the nets that [parse_netlist] returns for a readable file are
    the nets that its lines declare inside the nets section, and no other:
    a node line never makes a net, and a declaration met outside the section
    makes none. *)
Theorem parsed_nets_are_the_declared_nets
    (fs : file_system) (path content : string) :
  fs path = ReadOk content ->
  dom (parse_netlist fs path).1.1
  = list_to_set (declared_names false (readlines content)).
Proof.
  intros Hfs. rewrite (parse_netlist_ok fs path content Hfs). simpl.
  assert (H : forall lines st, pinv st ->
    dom (connections (parse_lines st lines).1)
    = dom (connections st)
        ∪ list_to_set (declared_names (in_nets_section st) lines)).
  { induction lines as [|raw rest IH]; intros st Hinv; simpl; [set_solver|].
    destruct (parse_line_ok st raw Hinv) as (st' & E & Hinv').
    rewrite E, (IH st' Hinv'). apply parse_line_dom in E.
    destruct (opens_nets raw); [destruct E as [-> ->]; done|].
    destruct (opens_components raw); [destruct E as [-> ->]; done|].
    destruct E as [-> ->].
    destruct (if in_nets_section st then net_re (strip raw) else None)
      as [[c n]|]; [|done].
    rewrite list_to_set_cons. set_solver. }
  rewrite (H _ init_pstate (pinv_init false)). simpl.
  rewrite dom_empty_L. set_solver.
Qed.

Lemma parsed_nets_are_the_declared_nets_witness :
  dom (parse_netlist sample_fs "b.net").1.1
  = list_to_set (declared_names false (readlines netlist_b)).
Proof.
  apply (parsed_nets_are_the_declared_nets sample_fs "b.net" netlist_b).
  reflexivity.
Defined.

Example declared_names_of_sample :
  declared_names false (readlines netlist_b) = ["GND"; "VCC"; "SIG"]
  /\ declared_names false (readlines netlist_no_section) = [].
Proof. split; vm_compute; reflexivity. Qed.
